(** * Embedding service [app.py]: a shallow embedding and its properties

    The service tokenizes a batch of texts, runs an ONNX feature-extraction
    model, mean-pools the hidden states under the attention mask, L2-normalises
    the pooled vectors and serves them over three HTTP routes.

    - [F32]    IEEE-754 binary32 arithmetic, as NumPy's [float32] computes it
    - [Np]     the NumPy operations the source calls, on shaped nested lists
    - [mean_pooling], [normalize]: lines 40-52
    - [Cache]  lines 13-35: model name, prefix flag and the ONNX cache
    - [App]    [get_embeddings] and the routes
    - [Spec]   the pooling algorithm as the specification words it
    - [Toy]    a small tokenizer/model pair used to run the handlers *)

From stdpp Require Import gmap strings list.
From Stdlib Require Import Ascii ZArith QArith Qabs Qpower Floats.SpecFloat.
From Stdlib Require Import DecimalString.

#[local] Open Scope Z_scope.

(** ** binary32 floating point *)

Module F32.

Definition prec : Z := 24.
Definition emax : Z := 128.

Abbreviation t := spec_float.

Definition zero : t := S754_zero false.
Definition nan : t := S754_nan.
Definition max_float : t := SFmax_float prec emax.

Definition add : t -> t -> t := SFadd prec emax.
Definition mul : t -> t -> t := SFmul prec emax.
Definition div : t -> t -> t := SFdiv prec emax.
Definition sqrt : t -> t := SFsqrt prec emax.

(** [astype(np.float32)] of an integer: round to nearest even. *)
Definition of_int (z : Z) : t := binary_normalize prec emax z 0 false.

Definition is_nan (x : t) : bool :=
  match x with S754_nan => true | _ => false end.
Definition is_inf (x : t) : bool :=
  match x with S754_infinity _ => true | _ => false end.
Definition is_zero (x : t) : bool :=
  match x with S754_zero _ => true | _ => false end.
Definition is_finite (x : t) : bool :=
  match x with S754_zero _ | S754_finite _ _ _ => true | _ => false end.

(** [np.maximum]: the larger operand, a NaN operand wins. *)
Definition maximum (a b : t) : t :=
  if SFleb b a || is_nan a then a else b.

(** The literal [1e-9] stored as a float32 (0x3089705F). *)
Definition eps : t := S754_finite false 9007199 (-53).

(** [a_min <= x] in the IEEE order (false when [x] is NaN). *)
Definition geb (x lo : t) : bool := SFleb lo x.

(** The exact rational value of a finite float. *)
Definition to_Q (x : t) : option Q :=
  match x with
  | S754_zero _ => Some 0%Q
  | S754_finite s m e =>
      let mag := (match e with
                  | Zneg p => Qmake (Zpos m) (2 ^ p)%positive
                  | _ => inject_Z (Zpos m * 2 ^ e)
                  end) in
      Some (if s then Qopp mag else mag)
  | _ => None
  end.

(** [x] is a finite float within [tol] of the rational [c]. *)
Definition within (x : t) (c tol : Q) : Prop :=
  match to_Q x with
  | Some q => (Qabs (q - c) <= tol)%Q
  | None => False
  end.

(** The product of two floats before any rounding: the mantissas are
    multiplied and the exponents added as they are. *)
Definition exact_mul (x y : t) : t :=
  match x, y with
  | S754_nan, _ | _, S754_nan => S754_nan
  | S754_infinity sx, S754_infinity sy => S754_infinity (xorb sx sy)
  | S754_infinity sx, S754_finite sy _ _ => S754_infinity (xorb sx sy)
  | S754_finite sx _ _, S754_infinity sy => S754_infinity (xorb sx sy)
  | S754_infinity _, S754_zero _ => S754_nan
  | S754_zero _, S754_infinity _ => S754_nan
  | S754_finite sx _ _, S754_zero sy => S754_zero (xorb sx sy)
  | S754_zero sx, S754_finite sy _ _ => S754_zero (xorb sx sy)
  | S754_zero sx, S754_zero sy => S754_zero (xorb sx sy)
  | S754_finite sx mx ex, S754_finite sy my ey =>
      S754_finite (xorb sx sy) (mx * my) (ex + ey)
  end.

(** Rounding of an unrounded product to binary32, to nearest even. *)
Definition round (p : t) : t :=
  match p with
  | S754_finite s m e => binary_round_aux prec emax s (Zpos m) e loc_Exact
  | _ => p
  end.

(** The binary exponent of a finite non-zero float: its value lies in
    [[2^(mag-1), 2^mag)]. *)
Definition mag (x : t) : Z :=
  match x with
  | S754_finite _ m e => Zpos (digits2_pos m) + e
  | _ => 0
  end.

End F32.

Abbreviation f32 := spec_float.

(** ** Python exceptions and results *)

Record exn := Exception { exn_type : string; exn_msg : string }.

(** [str(e)] *)
Definition str (e : exn) : string := exn_msg e.

Definition result (A : Type) : Type := exn + A.

Definition ok {A} (a : A) : result A := inr a.
Definition raise {A} (e : exn) : result A := inl e.

Definition rbind {A B} (r : result A) (k : A -> result B) : result B :=
  match r with
  | inl e => inl e
  | inr a => k a
  end.

(** ** NumPy arrays and the operations the source uses

    An array is its shape together with its items as nested lists in C order.
    The shape is kept apart because an axis of length zero hides the lengths
    of the axes after it. *)

Module Np.

Record ndarray2 (A : Type) := Arr2 { shape2 : nat * nat; rows2 : list (list A) }.
Record ndarray3 (A : Type) :=
  Arr3 { shape3 : nat * nat * nat; rows3 : list (list (list A)) }.
Arguments Arr2 {A} _ _.
Arguments shape2 {A} _.
Arguments rows2 {A} _.
Arguments Arr3 {A} _ _.
Arguments shape3 {A} _.
Arguments rows3 {A} _.

Definition wf_rows {A} (n : nat) (ls : list (list A)) : bool :=
  forallb (fun r => Nat.eqb (length r) n) ls.

(** The items agree with the declared shape. *)
Definition wf2 {A} (a : ndarray2 A) : bool :=
  let '(b, h) := shape2 a in
  Nat.eqb (length (rows2 a)) b && wf_rows h (rows2 a).

Definition wf3 {A} (a : ndarray3 A) : bool :=
  let '(b, s, h) := shape3 a in
  Nat.eqb (length (rows3 a)) b
  && forallb (fun toks => Nat.eqb (length toks) s && wf_rows h toks) (rows3 a).

(** A number as NumPy prints it in a shape. *)
Definition dec (n : nat) : string := NilZero.string_of_uint (Nat.to_uint n).

(** [(2,3,1)], and [(3,)] for one axis *)
Definition shape_string (dims : list nat) : string :=
  match dims with
  | [n] => "(" +:+ dec n +:+ ",)"
  | _ => "(" +:+ String.concat "," (map dec dims) +:+ ")"
  end.

(** [np.expand_dims(a, -1)] *)
Definition expand_dims_last {A} (a : ndarray2 A) : ndarray3 A :=
  let '(b, s) := shape2 a in
  Arr3 (b, s, 1%nat) (map (map (fun x => [x])) (rows2 a)).

(** [a.astype(np.float32)] on an integer array *)
Definition astype_float32 (a : ndarray3 Z) : ndarray3 f32 :=
  Arr3 (shape3 a) (map (map (map F32.of_int)) (rows3 a)).

(** One axis of length [d] can be broadcast to length [n]. *)
Definition broadcastable (d n : nat) : bool := Nat.eqb d n || Nat.eqb d 1.

(** Stretch an axis to length [n]: an axis of length one is repeated. *)
Definition stretch {A} (n : nat) (l : list A) : list A :=
  if Nat.eqb (length l) n then l
  else match l with
       | [x] => replicate n x
       | _ => l
       end.

(** The text of the [ValueError] of [np.broadcast_to]. *)
Definition broadcast_message (from to : nat * nat * nat) : string :=
  let '(b, s, h) := from in
  let '(b', s', h') := to in
  "operands could not be broadcast together with remapped shapes "
  +:+ "[original->remapped]: " +:+ shape_string [b; s; h]
  +:+ "  and requested shape " +:+ shape_string [b'; s'; h'].

(** [np.broadcast_to(a, shape)] for a three-axis array *)
Definition broadcast_to {A} (a : ndarray3 A) (shape : nat * nat * nat)
  : result (ndarray3 A) :=
  let '(b, s, h) := shape3 a in
  let '(b', s', h') := shape in
  if broadcastable b b' && broadcastable s s' && broadcastable h h' then
    ok (Arr3 shape
          (stretch b' (map (fun toks => stretch s' (map (stretch h') toks))
                         (rows3 a))))
  else
    raise (Exception "ValueError" (broadcast_message (shape3 a) shape)).

(** [a * b] for two arrays of one shape *)
Definition multiply (a b : ndarray3 f32) : ndarray3 f32 :=
  Arr3 (shape3 a)
    (zip_with (zip_with (zip_with F32.mul)) (rows3 a) (rows3 b)).

(** *** Add-reductions

    NumPy sums a contiguous run of floats with [pairwise_sum]: fewer than 8
    terms are added one after the other; up to 128 terms go into 8
    accumulators that are combined as a balanced tree, with the left-over terms
    added afterwards; longer runs are cut into two halves, the first a
    multiple of 8 long. *)

(** [r[j] += a[i + j]] for every whole block of 8; what is left over. *)
Fixpoint lanes (fuel : nat) (r rest : list f32) : list f32 * list f32 :=
  match fuel with
  | O => (r, rest)
  | S fuel' =>
      if Nat.leb 8 (length rest)
      then lanes fuel' (zip_with F32.add r (take 8 rest)) (drop 8 rest)
      else (r, rest)
  end.

Definition block_sum (l : list f32) : f32 :=
  let '(r, rest) := lanes (length l) (take 8 l) (drop 8 l) in
  match r with
  | [r0; r1; r2; r3; r4; r5; r6; r7] =>
      foldl F32.add
        (F32.add (F32.add (F32.add r0 r1) (F32.add r2 r3))
           (F32.add (F32.add r4 r5) (F32.add r6 r7)))
        rest
  | _ => F32.zero
  end.

Fixpoint pairwise_sum_fuel (fuel : nat) (l : list f32) : f32 :=
  let n := length l in
  if Nat.ltb n 8 then foldl F32.add F32.zero l
  else if Nat.leb n 128 then block_sum l
  else match fuel with
       | O => F32.zero
       | S fuel' =>
           let n2 := (n / 2 - (n / 2) mod 8)%nat in
           F32.add (pairwise_sum_fuel fuel' (take n2 l))
             (pairwise_sum_fuel fuel' (drop n2 l))
       end.

Definition pairwise_sum (l : list f32) : f32 := pairwise_sum_fuel (length l) l.

(** [np.add.reduce] of one contiguous run: the result starts as [0.0] and
    the pairwise sum of the run is added to it. *)
Definition add_reduce (l : list f32) : f32 := F32.add F32.zero (pairwise_sum l).

(** The sum of the [terms] found along the sequence axis at one position of
    the hidden axis. With more than one hidden component the slices along
    the sequence axis are added one after the other into an accumulator of
    zeros; with a single hidden component the sequence axis is contiguous and
    is reduced as one run. *)
Definition sum_along_sequence (h : nat) (terms : list f32) : f32 :=
  if Nat.eqb h 1 then add_reduce terms else foldl F32.add F32.zero terms.

(** [np.sum(a, axis=1)] on one batch row. *)
Definition sum_tokens (h : nat) (toks : list (list f32)) : list f32 :=
  if Nat.eqb h 1 then [add_reduce (map (fun tok => hd F32.zero tok) toks)]
  else foldl (zip_with F32.add) (replicate h F32.zero) toks.

(** [np.sum(a, axis=1)] *)
Definition sum_axis1 (a : ndarray3 f32) : ndarray2 f32 :=
  let '(b, _, h) := shape3 a in
  Arr2 (b, h) (map (sum_tokens h) (rows3 a)).

(** [np.clip(a, a_min=lo, a_max=None)] *)
Definition clip_min (a : ndarray2 f32) (lo : f32) : ndarray2 f32 :=
  Arr2 (shape2 a) (map (map (fun x => F32.maximum x lo)) (rows2 a)).

(** [a / b]; a column [b] of shape [(B, 1)] is broadcast along the rows. *)
Definition divide (a b : ndarray2 f32) : ndarray2 f32 :=
  Arr2 (shape2 a)
    (zip_with (fun ra rb => zip_with F32.div ra (stretch (length ra) rb))
       (rows2 a) (rows2 b)).

(** [np.linalg.norm(a, axis=1, keepdims=True)]:
    [sqrt(add.reduce(a * a, axis=1))], every row a contiguous run *)
Definition norm_row (v : list f32) : f32 :=
  F32.sqrt (add_reduce (map (fun x => F32.mul x x) v)).

Definition linalg_norm_axis1 (a : ndarray2 f32) : ndarray2 f32 :=
  Arr2 (fst (shape2 a), 1%nat) (map (fun v => [norm_row v]) (rows2 a)).

(** The text of the [ValueError] of [np.dot] on vectors of unequal length. *)
Definition dot_message (n m : nat) : string :=
  "shapes " +:+ shape_string [n] +:+ " and " +:+ shape_string [m]
  +:+ " not aligned: " +:+ dec n +:+ " (dim 0) != " +:+ dec m +:+ " (dim 0)".

(** [np.dot] of two float32 vectors. NumPy hands them to the BLAS routine
    [sdot]; in which order, in which precision and with or without fused
    multiply-adds the products are accumulated depends on the BLAS build, so
    the routine is a parameter. It is given the unrounded products, in
    order. *)
Definition dot (sdot : list f32 -> f32) (u v : list f32) : result f32 :=
  if Nat.eqb (length u) (length v) then
    ok (sdot (zip_with F32.exact_mul u v))
  else raise (Exception "ValueError" (dot_message (length u) (length v))).

(** [a[0]] *)
Definition row0 {A} (a : ndarray2 A) : result (list A) :=
  match rows2 a with
  | r :: _ => ok r
  | [] => raise (Exception "IndexError"
                   "index 0 is out of bounds for axis 0 with size 0")
  end.

End Np.

Import Np.

(** ** Pooling and normalisation (lines 40-52) *)

Definition mean_pooling (token_embeddings : ndarray3 f32)
    (attention_mask : ndarray2 Z) : result (ndarray2 f32) :=
  let input_mask_expanded := astype_float32 (expand_dims_last attention_mask) in
  rbind (broadcast_to input_mask_expanded (shape3 token_embeddings))
    (fun input_mask_expanded =>
       let sum_embeddings :=
         sum_axis1 (multiply token_embeddings input_mask_expanded) in
       let sum_mask := clip_min (sum_axis1 input_mask_expanded) F32.eps in
       ok (divide sum_embeddings sum_mask)).

Definition normalize (embeddings : ndarray2 f32) : ndarray2 f32 :=
  let norms := linalg_norm_axis1 embeddings in
  divide embeddings (clip_min norms F32.eps).

(** Lines 79-80 of [get_embeddings]: pool, then normalise. *)
Definition pool_and_normalize (hidden : ndarray3 f32) (mask : ndarray2 Z)
  : result (ndarray2 f32) :=
  rbind (mean_pooling hidden mask) (fun embeddings => ok (normalize embeddings)).

(** ** Strings *)

Definition lower_char (c : Ascii.ascii) : Ascii.ascii :=
  let n := Ascii.nat_of_ascii c in
  if Nat.leb 65 n && Nat.leb n 90 then Ascii.ascii_of_nat (n + 32) else c.

(** [s.lower()] on an ASCII identifier *)
Fixpoint lower (s : string) : string :=
  match s with
  | EmptyString => EmptyString
  | String c r => String (lower_char c) (lower r)
  end.

(** [sub in s] *)
Fixpoint contains (sub s : string) : bool :=
  String.prefix sub s
  || match s with
     | EmptyString => false
     | String _ r => contains sub r
     end.

(** [s.replace(old, new)] for one-character [old] and [new] *)
Fixpoint replace (old new : Ascii.ascii) (s : string) : string :=
  match s with
  | EmptyString => EmptyString
  | String c r =>
      String (if Ascii.eqb c old then new else c) (replace old new r)
  end.

(** The directories above a path, each with its final '/': the prefixes of
    [path] that end with '/'. *)
Fixpoint dir_prefixes (path : string) : list string :=
  match path with
  | EmptyString => []
  | String c rest =>
      (if Ascii.eqb c "/" then ["/"%string] else [])
      ++ map (String c) (dir_prefixes rest)
  end.


(** ** Model configuration and the ONNX cache (lines 13-35) *)

Module Cache.

Definition DEFAULT_MODEL : string := "intfloat/e5-small-v2".

(** [os.environ.get("EMBEDDING_MODEL", DEFAULT_MODEL)] *)
Definition model_name (environ : gmap string string) : string :=
  default DEFAULT_MODEL (environ !! "EMBEDDING_MODEL").

Definition USE_E5_PREFIX (model_name : string) : bool :=
  contains "e5" (lower model_name).

Definition onnx_path (model_name : string) : string :=
  "/app/cache/onnx/" +:+ replace "/"%char "_"%char model_name.

(** What start-up does to the outside world, in order. The [print] lines
    are left out. *)
Inductive io_event :=
  | LoadCached (path : string)
  | Convert (model_name : string)
  | MakeDirs (path : string)
  | SavePretrained (path : string).

Section Startup.

Context {Model : Type}.

(** The cache directory tree as start-up can observe it: a path that exists
    maps to the model [from_pretrained] finds there, [None] for a file or a
    directory without a model. A directory above another is written with its
    final '/'. *)
Abbreviation disk := (gmap string (option Model)).

(** What lies outside the program: the conversion, the exceptions of the
    library and of the operating system, and the names of the files
    [save_pretrained] writes for a model. *)
Record outside := Outside {
  (** [ORTModelForFeatureExtraction.from_pretrained(model_name, export=True)]:
      downloads and converts, or raises. *)
  export : string -> result Model;
  (** What [from_pretrained(path)] raises at a path without a model. *)
  load_error : string -> disk -> exn;
  (** [os.makedirs] raises when the system refuses. *)
  makedirs_error : string -> disk -> option exn;
  (** So does [save_pretrained]. *)
  save_error : Model -> string -> disk -> option exn;
  saved_files : Model -> list string
}.

Variable out : outside.

(** [ORTModelForFeatureExtraction.from_pretrained(onnx_path)] *)
Definition from_pretrained_local (path : string) (fs : disk) : result Model :=
  match fs !! path with
  | Some (Some m) => ok m
  | _ => raise (load_error out path fs)
  end.

(** A path that is missing comes to exist; one that exists is left alone. *)
Definition touch (path : string) (fs : disk) : disk :=
  match fs !! path with
  | Some _ => fs
  | None => <[path := None]> fs
  end.

(** [os.makedirs(path, exist_ok=True)]: the directory and every missing
    directory above it. *)
Definition makedirs (path : string) (fs : disk) : disk :=
  foldr touch (touch path fs) (dir_prefixes path).

(** [model.save_pretrained(path)]: the model's files below [path], after
    which [path] holds the model. *)
Definition save_pretrained (model : Model) (path : string) (fs : disk) : disk :=
  <[path := Some model]>
    (foldr (fun f => <[path +:+ "/" +:+ f := None]>) fs (saved_files out model)).

(** Lines 26-35. Returns the events, and either the exception that aborts
    start-up or the cache path, the loaded model and the disk afterwards. *)
Definition ensure_artifact (model_name : string) (fs : disk)
  : list io_event * result (string * Model * disk) :=
  let onnx_path := onnx_path model_name in
  if decide (is_Some (fs !! onnx_path)) then
    ([LoadCached onnx_path],
     rbind (from_pretrained_local onnx_path fs)
       (fun model => ok (onnx_path, model, fs)))
  else
    match export out model_name with
    | inl e => ([Convert model_name], raise e)
    | inr model =>
        match makedirs_error out onnx_path fs with
        | Some e => ([Convert model_name; MakeDirs onnx_path], raise e)
        | None =>
            let fs1 := makedirs onnx_path fs in
            match save_error out model onnx_path fs1 with
            | Some e =>
                ([Convert model_name; MakeDirs onnx_path;
                  SavePretrained onnx_path], raise e)
            | None =>
                ([Convert model_name; MakeDirs onnx_path;
                  SavePretrained onnx_path],
                 ok (onnx_path, model, save_pretrained model onnx_path fs1))
            end
        end
    end.

Definition converted (evs : list io_event) : bool :=
  existsb (fun ev => match ev with Convert _ => true | _ => false end) evs.

End Startup.

Arguments outside : clear implicits.

End Cache.

(** ** The request pipeline (lines 55-139) *)

Module App.

(** What [tokenizer(...)] returns: the two arrays the source reads. *)
Record Encoding := { input_ids : ndarray2 Z; attention_mask : ndarray2 Z }.

(** What the process holds after start-up and never changes afterwards. The
    tokenizer is called with [padding=True, truncation=True, max_length=512,
    return_tensors='np']; the model returns [last_hidden_state]; either may
    raise. [blas_sdot] is the BLAS routine NumPy was built with (see
    [Np.dot]). *)
Record Runtime := {
  model_name : string;
  tokenizer : list string -> result Encoding;
  model : ndarray2 Z -> ndarray2 Z -> result (ndarray3 f32);
  blas_sdot : list f32 -> f32
}.

(** Calls that leave the process, recorded in the order they are made. *)
Inductive event :=
  | Tokenize (texts : list string)
  | Infer (ids mask : ndarray2 Z).

(** A computation: the calls made so far and a value or an exception. *)
Definition M (A : Type) : Type := list event * result A.

Definition ret {A} (a : A) : M A := ([], ok a).
Definition lift {A} (r : result A) : M A := ([], r).
Definition call {A} (ev : event) (r : result A) : M A := ([ev], r).

Definition bind {A B} (m : M A) (k : A -> M B) : M B :=
  match m with
  | (tr, inl e) => (tr, inl e)
  | (tr, inr a) => let '(tr', r) := k a in (tr ++ tr', r)
  end.

Notation "'let*' x ':=' m 'in' k" := (bind m (fun x => k))
  (at level 10, x name, m at level 100, k at level 200).

Definition trace {A} (m : M A) : list event := fst m.
Definition outcome {A} (m : M A) : result A := snd m.

(** [f"{prefix}: {s}"] *)
Definition add_prefix (prefix s : string) : string := prefix +:+ ": " +:+ s.

Definition prefixed_sentences (rt : Runtime) (sentences : list string)
    (prefix : string) : list string :=
  if Cache.USE_E5_PREFIX (model_name rt) then map (add_prefix prefix) sentences
  else sentences.

Definition get_embeddings (rt : Runtime) (sentences : list string)
    (prefix : string) : M (ndarray2 f32) :=
  let prefixed := prefixed_sentences rt sentences prefix in
  let* encoded := call (Tokenize prefixed) (tokenizer rt prefixed) in
  let* last_hidden_state :=
    call (Infer (input_ids encoded) (attention_mask encoded))
      (model rt (input_ids encoded) (attention_mask encoded)) in
  let* embeddings :=
    lift (mean_pooling last_hidden_state (attention_mask encoded)) in
  ret (normalize embeddings).

(** The JSON documents the routes send back. *)
Inductive json :=
  | ErrorJson (error : string)
  | EmbedJson (embeddings : list (list f32)) (dimension count : nat)
  | SimilarityJson (similarity : f32) (text1 text2 : string).

Definition response : Type := json * nat.

(** [try: ... except Exception as e: return jsonify({"error": str(e)}), 500] *)
Definition try_except (m : M response) : list event * response :=
  match m with
  | (tr, inr r) => (tr, r)
  | (tr, inl e) => (tr, (ErrorJson (str e), 500%nat))
  end.

(** The body of [POST /embed], with the field types the interface gives. *)
Record embed_request := {
  text : option string;
  texts : option (list string);
  prefix : option string
}.

(** Lines 100-105: which texts the request asks for, if any. *)
Definition select_texts (data : embed_request) : option (list string) :=
  match text data with
  | Some t => Some [t]
  | None => texts data
  end.

Definition embed (rt : Runtime) (data : embed_request) : list event * response :=
  match select_texts data with
  | None =>
      ([], (ErrorJson "Missing 'text' or 'texts' in request body", 400%nat))
  | Some texts =>
      let prefix := default "passage" (prefix data) in
      try_except
        (let* embeddings := get_embeddings rt texts prefix in
         ret (EmbedJson (rows2 embeddings) (snd (shape2 embeddings))
                (length texts), 200%nat))
  end.

(** The body of [POST /similarity]. *)
Record similarity_request := { text1 : option string; text2 : option string }.

Definition similarity (rt : Runtime) (data : similarity_request)
  : list event * response :=
  match text1 data, text2 data with
  | Some t1, Some t2 =>
      try_except
        (let* emb1 := get_embeddings rt [t1] "query" in
         let* emb2 := get_embeddings rt [t2] "passage" in
         let* u := lift (row0 emb1) in
         let* v := lift (row0 emb2) in
         let* similarity := lift (dot (blas_sdot rt) u v) in
         ret (SimilarityJson similarity t1 t2, 200%nat))
  | _, _ =>
      ([], (ErrorJson "Missing 'text1' or 'text2' in request body", 400%nat))
  end.

End App.

(** ** A small runtime to run the handlers on

    The tokenizer maps a text to [CLS], its character codes and [SEP], cuts at
    512 tokens and pads with zeros to the longest row; like the fast
    tokenizers it raises on an empty batch. The model turns every token id
    into a three-component vector. *)

Module Toy.

Import App.

Fixpoint codes (s : string) : list Z :=
  match s with
  | EmptyString => []
  | String c r => Z.of_nat (Ascii.nat_of_ascii c) :: codes r
  end.

Definition tokens (s : string) : list Z := take 512 (101 :: codes s ++ [102]).

Definition pad {A} (n : nat) (x : A) (l : list A) : list A :=
  l ++ replicate (n - length l) x.

Definition longest (ls : list (list Z)) : nat :=
  foldr (fun l n => Nat.max (length l) n) 0%nat ls.

Definition tokenizer (batch : list string) : result Encoding :=
  match batch with
  | [] => raise (Exception "IndexError" "list index out of range")
  | _ =>
      let rows := map tokens batch in
      let width := longest rows in
      ok {| input_ids := Arr2 (length rows, width) (map (pad width 0) rows);
            attention_mask :=
              Arr2 (length rows, width)
                (map (fun r => pad width 0 (map (fun _ => 1) r)) rows) |}
  end.

Definition token_vector (id : Z) : list f32 :=
  [F32.of_int (id mod 7); F32.of_int (id mod 5); F32.of_int 1].

Definition model (ids mask : ndarray2 Z) : result (ndarray3 f32) :=
  ok (Arr3 (fst (shape2 ids), snd (shape2 ids), 3%nat)
        (map (map token_vector) (rows2 ids))).

(** binary64, for the accumulator of [sdot]. *)
Definition widen (x : f32) : spec_float :=
  match x with
  | S754_finite s m e =>
      binary_normalize 53 1024 (cond_Zopp s (Zpos m)) e false
  | _ => x
  end.

Definition narrow (d : spec_float) : f32 :=
  match d with
  | S754_finite s m e =>
      binary_normalize F32.prec F32.emax (cond_Zopp s (Zpos m)) e false
  | _ => d
  end.

(** [sdot] as the plain loop of a BLAS kernel for short vectors: every
    product is rounded to binary32, the products are accumulated in a
    binary64 variable and the total is rounded to binary32. *)
Definition sdot (products : list f32) : f32 :=
  narrow (foldl (fun acc p => SFadd 53 1024 acc (widen (F32.round p)))
            (S754_zero false) products).

(** A runtime whose model name asks for E5 prefixes, and one that does not. *)
Definition e5_runtime : Runtime :=
  {| App.model_name := Cache.DEFAULT_MODEL;
     App.tokenizer := tokenizer; App.model := model; App.blas_sdot := sdot |}.

Definition plain_runtime : Runtime :=
  {| App.model_name := "sentence-transformers/all-MiniLM-L6-v2";
     App.tokenizer := tokenizer; App.model := model; App.blas_sdot := sdot |}.

End Toy.


(** ** The pooling algorithm as the specification words it

    "For each batch row, broadcast the attention mask across the hidden
    dimension, elementwise-multiply with the hidden-state tensor, sum over the
    sequence axis, and divide by the sum of the mask over the sequence axis,
    the divisor clamped to 1e-9"; then "divide each pooled vector by its
    Euclidean norm, again clamping the norm to 1e-9". The sums are the
    float32 sums of NumPy. *)

Module Spec.

(** [x] clamped below at 1e-9: what is smaller becomes 1e-9. *)
Definition clamp (x : f32) : f32 := if SFltb x F32.eps then F32.eps else x.

(** Component [j] of the pooled vector of one batch row. *)
Definition mean_pool_component (h : nat) (toks : list (list f32))
    (mrow : list Z) (j : nat) : f32 :=
  let masked :=
    zip_with (fun tok m => F32.mul (nth j tok F32.zero) (F32.of_int m))
      toks mrow in
  let count := sum_along_sequence h (map F32.of_int mrow) in
  F32.div (sum_along_sequence h masked) (clamp count).

Definition mean_pool_row (h : nat) (toks : list (list f32)) (mrow : list Z)
  : list f32 :=
  map (mean_pool_component h toks mrow) (seq 0 h).

Definition euclidean_norm (v : list f32) : f32 :=
  F32.sqrt (add_reduce (map (fun x => F32.mul x x) v)).

Definition l2_normalize (v : list f32) : list f32 :=
  map (fun x => F32.div x (clamp (euclidean_norm v))) v.

Definition pool_and_normalize (hidden : ndarray3 f32) (mask : ndarray2 Z)
  : ndarray2 f32 :=
  let '(b, _, h) := shape3 hidden in
  Arr2 (b, h)
    (zip_with (fun toks mrow => l2_normalize (mean_pool_row h toks mrow))
       (rows3 hidden) (rows2 mask)).

End Spec.

(** ** The array pipeline, one batch row at a time *)

Definition clamp_eps (x : f32) : f32 := F32.maximum x F32.eps.

(** The mask of one batch row after [expand_dims] and [broadcast_to]. *)
Definition mask_row_expanded (h : nat) (mrow : list Z) : list (list f32) :=
  map (fun m => replicate h (F32.of_int m)) mrow.

(** One row of [mean_pooling]. *)
Definition pool_row (h : nat) (toks : list (list f32)) (mrow : list Z)
  : list f32 :=
  zip_with F32.div
    (sum_tokens h (zip_with (zip_with F32.mul) toks (mask_row_expanded h mrow)))
    (map clamp_eps (sum_tokens h (mask_row_expanded h mrow))).

(** One row of [normalize]. *)
Definition normalize_row (v : list f32) : list f32 :=
  map (fun x => F32.div x (clamp_eps (norm_row v))) v.

(** ** Inputs used as examples *)

Definition ex_hidden : ndarray3 f32 :=
  Arr3 (1, 3, 2)%nat
    [[[F32.of_int 1; F32.of_int 1]; [F32.of_int 3; F32.of_int 3];
      [F32.of_int 0; F32.of_int 0]]].
Definition ex_mask : ndarray2 Z := Arr2 (1, 3)%nat [[1; 1; 0]].

(** [1, 2^-12, ..., 2^-12]: eight components. *)
Definition lanes_row : list f32 :=
  F32.of_int 1 :: replicate 7 (S754_finite false 8388608 (-35)).

Definition overflow_hidden : ndarray3 f32 :=
  Arr3 (1, 2, 1)%nat [[[F32.max_float]; [F32.max_float]]].
Definition overflow_mask : ndarray2 Z := Arr2 (1, 2)%nat [[1; 1]].

Definition all_finite (a : ndarray3 f32) : Prop :=
  Forall (Forall (Forall (fun x => F32.is_finite x = true))) (rows3 a).

(** A divisor that went through the clamp: not a zero, and a NaN or at least
    [1e-9]. *)
Definition clamped (d : f32) : Prop :=
  F32.is_zero d = false /\ (F32.is_nan d || F32.geb d F32.eps = true).

Definition all_clamped (den : ndarray2 f32) : Prop :=
  Forall (Forall clamped) (rows2 den).

Definition is_zero_vector (v : list f32) : Prop :=
  Forall (fun x => F32.is_zero x = true) v.

Definition padded_hidden : ndarray3 f32 :=
  Arr3 (2, 2, 2)%nat
    [[[F32.of_int 1; F32.of_int 2]; [F32.of_int 3; F32.of_int 4]];
     [[F32.of_int 5; F32.of_int (-6)]; [F32.of_int 7; F32.of_int 8]]].
Definition padded_mask : ndarray2 Z := Arr2 (2, 2)%nat [[1; 1]; [0; 0]].

(** A stand-in for what lies outside: every identifier converts to model
    [m], nothing is refused, and a model is saved as two files. *)
Definition toy_outside (m : nat) : Cache.outside nat :=
  {| Cache.export := fun _ => ok m;
     Cache.load_error := fun _ _ => Exception "OSError" "no model";
     Cache.makedirs_error := fun _ _ => None;
     Cache.save_error := fun _ _ _ => None;
     Cache.saved_files := fun _ => ["config.json"; "model.onnx"] |}.

(** ** Observations on responses *)

Import App.

(** The batches handed to the tokenizer, in call order. *)
Definition tokenizer_inputs (tr : list event) : list (list string) :=
  flat_map (fun ev => match ev with Tokenize ts => [ts] | Infer _ _ => [] end) tr.

Definition status (r : list event * response) : nat := snd (snd r).
Definition body (r : list event * response) : json := fst (snd r).

(** The similarity score of a response, if it carries one. *)
Definition score (r : list event * response) : option f32 :=
  match body r with
  | SimilarityJson s _ _ => Some s
  | _ => None
  end.

Definition to_option {A} (r : result A) : option A :=
  match r with
  | inr a => Some a
  | inl _ => None
  end.

Definition empty_batch_request (p : option string) : embed_request :=
  {| text := None; texts := Some []; prefix := p |}.

Definition sim_request (a b : string) : similarity_request :=
  {| text1 := Some a; text2 := Some b |}.

(** ** [GET /health] (lines 85-92) *)

Record health_json := {
  health_status : string;
  health_model : string;
  health_runtime : string;
  e5_prefix_mode : bool
}.

Definition health (rt : Runtime) : list event * (health_json * nat) :=
  ([], ({| health_status := "healthy";
           health_model := model_name rt;
           health_runtime := "onnx";
           e5_prefix_mode := Cache.USE_E5_PREFIX (model_name rt) |}, 200%nat)).

(** ** Further observations *)

(** Two floats that compare equal as a caller sees them: the same float, or
    two zeros whatever their signs. *)
Definition same_value (x y : f32) : Prop :=
  x = y \/ (F32.is_zero x = true /\ F32.is_zero y = true).

(** The model calls of a trace, in order. *)
Definition model_inputs (tr : list event) : list (ndarray2 Z * ndarray2 Z) :=
  flat_map (fun ev => match ev with
                      | Infer ids mask => [(ids, mask)]
                      | Tokenize _ => []
                      end) tr.

(** A one-row batch. *)
Definition single3 (s h : nat) (toks : list (list f32)) : ndarray3 f32 :=
  Arr3 (1%nat, s, h) [toks].
Definition single2 (s : nat) (mrow : list Z) : ndarray2 Z :=
  Arr2 (1%nat, s) [mrow].

Definition text_request (t : string) (p : string) : embed_request :=
  {| text := Some t; texts := None; prefix := Some p |}.

(** A runtime whose tokenizer always raises. *)
Definition broken_runtime : Runtime :=
  {| model_name := "broken";
     tokenizer := fun _ => raise (Exception "RuntimeError" "tokenizer failed");
     model := Toy.model;
     blas_sdot := Toy.sdot |}.

(** A mask with a row too many for [ex_hidden]. *)
Definition long_mask : ndarray2 Z := Arr2 (2, 3)%nat [[1; 1; 0]; [1; 0; 0]].


(** ** Sums in any order *)

(** [sums_to l x]: [x] is obtained by adding up the terms of [l], and
    possibly some [+0.0], in some order and grouping. *)
Inductive sums_to : list f32 -> f32 -> Prop :=
  | sums_nil : sums_to [] F32.zero
  | sums_one (x : f32) : sums_to [x] x
  | sums_add (l1 l2 : list f32) (x y : f32) :
      sums_to l1 x -> sums_to l2 y -> sums_to (l1 ++ l2) (F32.add x y)
  | sums_perm (l l' : list f32) (x : f32) :
      l ≡ₚ l' -> sums_to l x -> sums_to l' x.

(** A zero, a positive finite float or [+Inf]. *)
Definition nonneg (x : f32) : bool :=
  match x with
  | S754_zero _ | S754_finite false _ _ | S754_infinity false => true
  | _ => false
  end.

Definition all_finite2 (a : ndarray2 f32) : Prop :=
  Forall (Forall (fun x => F32.is_finite x = true)) (rows2 a).


(** [+Inf], or a positive float whose exponent is at least that of
    [1e-9]. *)
Definition far_from_zero (d : f32) : Prop :=
  match d with
  | S754_infinity false => True
  | S754_finite false _ e => -53 <= e
  | _ => False
  end.

(** * Properties *)

(** ** Facts about binary32 arithmetic *)

Section F32_facts.

Import F32.

Lemma mul_comm (x y : f32) : mul x y = mul y x.
Proof.
  destruct x as [sx|sx| |sx mx ex], y as [sy|sy| |sy my ey]; cbn;
    rewrite ?(xorb_comm sx sy); try reflexivity.
  now rewrite (Pos.mul_comm mx my), (Z.add_comm ex ey).
Qed.

Ltac f32_unfold :=
  unfold add, mul, div, sqrt, maximum, geb, zero, eps, is_zero, is_nan,
    is_finite in *.

Lemma mul_zero_r (x : f32) (s : bool) :
  is_finite x = true -> is_zero (mul x (S754_zero s)) = true.
Proof. f32_unfold; destruct x; simpl; congruence. Qed.

Lemma of_int_0 : of_int 0 = zero.
Proof. reflexivity. Qed.

Lemma add_zero_zero (x y : f32) :
  is_zero x = true -> is_zero y = true -> is_zero (add x y) = true.
Proof.
  f32_unfold; destruct x as [[]| | |], y as [[]| | |]; simpl; congruence.
Qed.

Lemma mul_self_zero (x : f32) : is_zero x = true -> mul x x = zero.
Proof. f32_unfold; destruct x as [[]| | |]; simpl; congruence. Qed.

Lemma sqrt_zero : sqrt zero = zero.
Proof. reflexivity. Qed.

Lemma maximum_zero_eps (x : f32) : is_zero x = true -> maximum x eps = eps.
Proof. f32_unfold; destruct x as [[]| | |]; simpl; congruence. Qed.

Lemma div_zero_eps (x : f32) : is_zero x = true -> is_zero (div x eps) = true.
Proof. f32_unfold; destruct x; simpl; congruence. Qed.

(** A clamped value is never a zero: it is a NaN or at least [eps]. *)
Lemma maximum_eps_nonzero (x : f32) :
  is_zero (maximum x eps) = false
  /\ (is_nan (maximum x eps) || geb (maximum x eps) eps = true).
Proof.
  unfold maximum, geb.
  destruct (SFleb eps x) eqn:Hle; cbn [orb].
  - rewrite Hle, orb_true_r. split; [|reflexivity].
    destruct x as [[]| | |]; cbn in *; congruence.
  - destruct (is_nan x) eqn:Hn.
    + rewrite Hn. split; [|reflexivity]. destruct x; cbn in *; congruence.
    + split; reflexivity.
Qed.

Lemma compare_eps_antisym (x : f32) :
  SFltb x eps = negb (SFleb eps x || is_nan x).
Proof.
  unfold SFltb, SFleb, eps, is_nan.
  destruct x as [s|[]| |[] m e]; try reflexivity.
  cbn [SFcompare]. rewrite (Z.compare_antisym e (-53)).
  destruct (e ?= -53); cbn [CompOpp]; try reflexivity.
  change (PosDef.Pos.compare_cont Eq 9007199 m)
    with (Pos.compare_cont (CompOpp Eq) 9007199 m).
  rewrite <- (Pos.compare_cont_antisym m 9007199 Eq).
  change (PosDef.Pos.compare_cont Eq m 9007199)
    with (Pos.compare_cont Eq m 9007199).
  destruct (Pos.compare_cont Eq m 9007199); reflexivity.
Qed.

(** [np.maximum(x, 1e-9)] clamps below at 1e-9. *)
Lemma maximum_eps_clamp (x : f32) : maximum x eps = Spec.clamp x.
Proof.
  unfold maximum, Spec.clamp. rewrite compare_eps_antisym.
  now destruct (SFleb eps x || is_nan x).
Qed.

Lemma mul_round_exact (x y : f32) : mul x y = round (exact_mul x y).
Proof. destruct x, y; reflexivity. Qed.

Lemma exact_mul_comm (x y : f32) : exact_mul x y = exact_mul y x.
Proof.
  destruct x as [sx|sx| |sx mx ex], y as [sy|sy| |sy my ey]; cbn;
    rewrite ?(xorb_comm sx sy); try reflexivity.
  now rewrite (Pos.mul_comm mx my), (Z.add_comm ex ey).
Qed.

End F32_facts.


(** ** NumPy's reductions add up their terms *)

Section Sums.

Lemma sums_to_foldl (pre l : list f32) (acc : f32) :
  sums_to pre acc -> sums_to (pre ++ l) (foldl F32.add acc l).
Proof.
  revert pre acc. induction l as [|x l IH]; intros pre acc Hacc; cbn.
  - now rewrite app_nil_r.
  - replace (pre ++ x :: l) with ((pre ++ [x]) ++ l)
      by now rewrite <- app_assoc.
    apply IH. apply sums_add; [exact Hacc | apply sums_one].
Qed.

Lemma sums_to_foldl_zero (l : list f32) :
  sums_to l (foldl F32.add F32.zero l).
Proof. apply (sums_to_foldl [] l F32.zero). apply sums_nil. Qed.

Lemma concat_singletons (l : list f32) : concat (map (fun x => [x]) l) = l.
Proof. induction l as [|a l IH]; cbn; [reflexivity | now f_equal]. Qed.

Lemma lanes_step (Ls : list (list f32)) (r blk : list f32) :
  Forall2 sums_to Ls r -> length blk = length r ->
  Forall2 sums_to (zip_with (fun L b => L ++ [b]) Ls blk)
    (zip_with F32.add r blk)
  /\ concat (zip_with (fun L b => L ++ [b]) Ls blk) ≡ₚ concat Ls ++ blk.
Proof.
  intros H. revert blk. induction H as [|L x Ls r HL _ IH]; intros blk Hlen.
  - destruct blk; [|discriminate]. split; [constructor | reflexivity].
  - destruct blk as [|b blk]; [discriminate|]. cbn in Hlen.
    destruct (IH blk) as [IH1 IH2]; [lia|]. cbn [zip_with concat]. split.
    + constructor; [|exact IH1]. apply sums_add; [exact HL | apply sums_one].
    + rewrite IH2. rewrite <- !app_assoc. apply Permutation_app_head.
      cbn. rewrite Permutation_middle. reflexivity.
Qed.

Lemma lanes_spec (fuel : nat) (Ls : list (list f32)) (r rest : list f32) :
  Forall2 sums_to Ls r -> length r = 8%nat ->
  exists Ls' pre,
    Forall2 sums_to Ls' (fst (lanes fuel r rest))
    /\ length (fst (lanes fuel r rest)) = 8%nat
    /\ rest = pre ++ snd (lanes fuel r rest)
    /\ concat Ls' ≡ₚ concat Ls ++ pre.
Proof.
  revert Ls r rest. induction fuel as [|fuel IH]; intros Ls r rest HLs Hr.
  - exists Ls, []. cbn. rewrite app_nil_r. auto.
  - cbn [lanes]. destruct (Nat.leb_spec 8 (length rest)) as [Hge|Hlt].
    + assert (Hblk : length (take 8 rest) = length r)
        by (rewrite length_take; lia).
      destruct (lanes_step Ls r (take 8 rest) HLs Hblk) as [H1 H2].
      destruct (IH _ _ (drop 8 rest) H1) as (Ls' & pre & H3 & H4 & H5 & H6).
      { rewrite length_zip_with. lia. }
      exists Ls', (take 8 rest ++ pre). split; [exact H3|].
      split; [exact H4|]. split.
      * rewrite <- app_assoc, <- H5. now rewrite take_drop.
      * rewrite H6, H2. now rewrite app_assoc.
    + exists Ls, []. cbn. rewrite app_nil_r. auto.
Qed.

Lemma sums_to_block (l : list f32) :
  (8 <= length l)%nat -> sums_to l (block_sum l).
Proof.
  intros Hlen. unfold block_sum.
  assert (H0 : Forall2 sums_to (map (fun x => [x]) (take 8 l)) (take 8 l)).
  { induction (take 8 l); cbn; constructor; auto using sums_one. }
  assert (Hr : length (take 8 l) = 8%nat) by (rewrite length_take; lia).
  destruct (lanes_spec (length l) _ _ (drop 8 l) H0 Hr)
    as (Ls & pre & HLs & Hlen' & Hrest & Hperm).
  destruct (lanes (length l) (take 8 l) (drop 8 l)) as [r rest].
  cbn [fst snd] in *.
  destruct r as [|r0 [|r1 [|r2 [|r3 [|r4 [|r5 [|r6 [|r7 [|]]]]]]]]];
    try discriminate Hlen'.
  inversion HLs as [|L0 ? ? ? S0 T0]; subst.
  inversion T0 as [|L1 ? ? ? S1 T1]; subst.
  inversion T1 as [|L2 ? ? ? S2 T2]; subst.
  inversion T2 as [|L3 ? ? ? S3 T3]; subst.
  inversion T3 as [|L4 ? ? ? S4 T4]; subst.
  inversion T4 as [|L5 ? ? ? S5 T5]; subst.
  inversion T5 as [|L6 ? ? ? S6 T6]; subst.
  inversion T6 as [|L7 ? ? ? S7 T7]; subst.
  inversion T7; subst.
  apply (sums_perm
           ((((L0 ++ L1) ++ (L2 ++ L3)) ++ ((L4 ++ L5) ++ (L6 ++ L7))) ++ rest)).
  - rewrite <- (take_drop 8 l). rewrite Hrest.
    rewrite (app_assoc (take 8 l) pre rest). apply Permutation_app_tail.
    rewrite concat_singletons in Hperm. rewrite <- Hperm. cbn [concat].
    rewrite app_nil_r, <- !app_assoc. reflexivity.
  - apply sums_to_foldl. repeat apply sums_add; assumption.
Qed.

Lemma sums_to_pairwise_fuel (fuel : nat) (l : list f32) :
  (length l <= fuel)%nat -> sums_to l (pairwise_sum_fuel fuel l).
Proof.
  revert l. induction fuel as [|fuel IH]; intros l Hfuel.
  - destruct l; [|cbn in Hfuel; lia]. apply sums_nil.
  - cbn [pairwise_sum_fuel].
    destruct (Nat.ltb_spec (length l) 8) as [Hlt|Hge];
      [apply sums_to_foldl_zero|].
    destruct (Nat.leb_spec (length l) 128) as [Hle|Hgt];
      [now apply sums_to_block|].
    set (n2 := (length l / 2 - (length l / 2) mod 8)%nat).
    assert (Hhalf : (64 <= length l / 2 <= length l - 1)%nat).
    { split; [apply Nat.div_le_lower_bound; lia|].
      assert (length l / 2 < length l)%nat by (apply Nat.div_lt; lia). lia. }
    assert (Hmod : ((length l / 2) mod 8 < 8)%nat)
      by (apply Nat.mod_upper_bound; lia).
    assert (Hn2 : (1 <= n2 <= length l - 1)%nat) by (unfold n2; lia).
    rewrite <- (take_drop n2 l) at 1.
    apply sums_add; apply IH.
    + rewrite length_take. lia.
    + rewrite length_drop. lia.
Qed.

Lemma sums_to_pairwise (l : list f32) : sums_to l (pairwise_sum l).
Proof. now apply sums_to_pairwise_fuel. Qed.

Lemma sums_to_add_reduce (l : list f32) : sums_to l (add_reduce l).
Proof.
  unfold add_reduce. apply (sums_add [] l); [apply sums_nil|].
  apply sums_to_pairwise.
Qed.

Lemma sums_to_sequence (h : nat) (l : list f32) :
  sums_to l (sum_along_sequence h l).
Proof.
  unfold sum_along_sequence.
  destruct (Nat.eqb h 1); [apply sums_to_add_reduce | apply sums_to_foldl_zero].
Qed.

(** What holds of [+0.0] and is kept by addition holds of every sum. *)
Lemma sums_to_closed (P : f32 -> Prop) (l : list f32) (x : f32) :
  P F32.zero -> (forall a b, P a -> P b -> P (F32.add a b)) ->
  sums_to l x -> Forall P l -> P x.
Proof.
  intros Hz Hadd Hsum. induction Hsum as [|a|l1 l2 a b _ IH1 _ IH2|l l' a Hp _ IH];
    intros Hall.
  - exact Hz.
  - now inversion Hall.
  - apply Forall_app in Hall as [H1 H2]. auto.
  - apply IH. now rewrite Hp.
Qed.

End Sums.
(** ** The array pipeline, row by row *)

Section Rows.

Lemma stretch_same {A} (n : nat) (l : list A) : length l = n -> stretch n l = l.
Proof. intros H. unfold stretch. now rewrite H, Nat.eqb_refl. Qed.

Lemma stretch_singleton {A} (n : nat) (x : A) : stretch n [x] = replicate n x.
Proof.
  unfold stretch. cbn [length].
  destruct (Nat.eqb_spec 1 n) as [<-|]; reflexivity.
Qed.

Lemma wf_rows_Forall {A} (n : nat) (ls : list (list A)) :
  wf_rows n ls = true <-> Forall (fun r => length r = n) ls.
Proof.
  unfold wf_rows. rewrite forallb_forall, Forall_forall.
  split; intros H r Hr.
  - apply Nat.eqb_eq, H. now apply list_elem_of_In.
  - apply Nat.eqb_eq, H. now apply list_elem_of_In.
Qed.

Lemma zip_with_div_replicate (v : list f32) (d : f32) :
  zip_with F32.div v (replicate (length v) d) = map (fun x => F32.div x d) v.
Proof. induction v as [|x v IH]; cbn; [reflexivity | now rewrite IH]. Qed.

Lemma normalize_rows (e : ndarray2 f32) :
  normalize e = Arr2 (shape2 e) (map normalize_row (rows2 e)).
Proof.
  unfold normalize, divide, clip_min, linalg_norm_axis1. cbn [shape2 rows2].
  f_equal. induction (rows2 e) as [|v rows IH]; cbn; [reflexivity|].
  rewrite IH. f_equal.
  rewrite stretch_singleton. apply zip_with_div_replicate.
Qed.

Lemma length_foldl_zip_with_add (acc : list f32) (vs : list (list f32)) :
  Forall (fun v => length v = length acc) vs ->
  length (foldl (zip_with F32.add) acc vs) = length acc.
Proof.
  revert acc. induction vs as [|v vs IH]; intros acc Hvs; cbn; [reflexivity|].
  inversion Hvs as [|? ? Hv Hrest]; subst.
  assert (Hlen : length (zip_with F32.add acc v) = length acc).
  { rewrite length_zip_with. lia. }
  rewrite IH; [exact Hlen|].
  rewrite Hlen. exact Hrest.
Qed.

Lemma length_sum_tokens (h : nat) (vs : list (list f32)) :
  Forall (fun v => length v = h) vs -> length (sum_tokens h vs) = h.
Proof.
  intros H. unfold sum_tokens. destruct (Nat.eqb_spec h 1) as [->|_];
    [reflexivity|].
  rewrite length_foldl_zip_with_add; rewrite length_replicate; auto.
Qed.

Lemma mask_row_expanded_wf (h : nat) (mrow : list Z) :
  Forall (fun v => length v = h) (mask_row_expanded h mrow).
Proof.
  unfold mask_row_expanded. induction mrow; cbn; constructor; auto.
  apply length_replicate.
Qed.

Lemma masked_tokens_wf (h : nat) (toks : list (list f32)) (mrow : list Z) :
  Forall (fun v => length v = h) toks ->
  Forall (fun v => length v = h)
    (zip_with (zip_with F32.mul) toks (mask_row_expanded h mrow)).
Proof.
  intros H. revert mrow. induction H as [|tok toks Htok _ IH]; intros mrow.
  - constructor.
  - destruct mrow as [|m mrow]; cbn; constructor; [|apply IH].
    rewrite length_zip_with, length_replicate. lia.
Qed.

Lemma expand_mask_row (h : nat) (r : list Z) :
  map (stretch h) (map (map F32.of_int) (map (fun x => [x]) r))
  = mask_row_expanded h r.
Proof.
  unfold mask_row_expanded. induction r as [|m r IH]; cbn; [reflexivity|].
  now rewrite IH, stretch_singleton.
Qed.

Lemma length_mask_row_expanded (h : nat) (r : list Z) :
  length (mask_row_expanded h r) = length r.
Proof. unfold mask_row_expanded. now rewrite length_map. Qed.

Lemma wf2_inv {A} (a : ndarray2 A) (b s : nat) :
  wf2 a = true -> shape2 a = (b, s) ->
  length (rows2 a) = b /\ Forall (fun r => length r = s) (rows2 a).
Proof.
  unfold wf2. intros H Hs. rewrite Hs in H. apply andb_prop in H as [Hb Hr].
  split; [now apply Nat.eqb_eq | now apply wf_rows_Forall].
Qed.

Lemma wf3_inv {A} (a : ndarray3 A) (b s h : nat) :
  wf3 a = true -> shape3 a = (b, s, h) ->
  length (rows3 a) = b
  /\ Forall (fun toks => length toks = s
                         /\ Forall (fun v => length v = h) toks) (rows3 a).
Proof.
  unfold wf3. intros H Hs. rewrite Hs in H. apply andb_prop in H as [Hb Hr].
  split; [now apply Nat.eqb_eq|].
  rewrite forallb_forall in Hr. apply Forall_forall. intros toks Hin.
  apply list_elem_of_In, Hr, andb_prop in Hin as [Hlen Hh].
  split; [now apply Nat.eqb_eq | now apply wf_rows_Forall].
Qed.

Lemma broadcast_mask_rows (mask : ndarray2 Z) (b s h : nat) :
  wf2 mask = true -> shape2 mask = (b, s) ->
  broadcast_to (astype_float32 (expand_dims_last mask)) (b, s, h)
  = ok (Arr3 (b, s, h) (map (mask_row_expanded h) (rows2 mask))).
Proof.
  intros Hwf Hshape. destruct (wf2_inv _ _ _ Hwf Hshape) as [Hb Hrows].
  unfold broadcast_to, astype_float32, expand_dims_last. rewrite Hshape.
  cbn [shape3 rows3]. unfold broadcastable.
  rewrite !Nat.eqb_refl, orb_true_r. cbn [orb andb]. do 2 f_equal.
  rewrite stretch_same by now rewrite !length_map.
  clear Hb Hwf Hshape. induction Hrows as [|r rows Hr _ IH]; cbn; [reflexivity|].
  rewrite IH, expand_mask_row. f_equal.
  apply stretch_same. now rewrite length_mask_row_expanded.
Qed.

Lemma pooled_rows (h : nat) (hrows : list (list (list f32)))
    (mrows : list (list Z)) :
  Forall (fun toks => Forall (fun v => length v = h) toks) hrows ->
  zip_with (fun ra rb => zip_with F32.div ra (stretch (length ra) rb))
    (map (sum_tokens h)
       (zip_with (zip_with (zip_with F32.mul)) hrows
          (map (mask_row_expanded h) mrows)))
    (map (map clamp_eps) (map (sum_tokens h) (map (mask_row_expanded h) mrows)))
  = zip_with (pool_row h) hrows mrows.
Proof.
  intros H. revert mrows.
  induction H as [|toks hrows Htoks _ IH]; intros [|mrow mrows]; cbn;
    try reflexivity.
  rewrite IH. f_equal. unfold pool_row. f_equal.
  apply stretch_same.
  rewrite length_map, !length_sum_tokens; auto using mask_row_expanded_wf,
    masked_tokens_wf.
Qed.

(** With arrays of matching shapes [mean_pooling] returns, and its rows
    are those of [pool_row]. *)
Lemma mean_pooling_rows (hidden : ndarray3 f32) (mask : ndarray2 Z)
    (b s h : nat) :
  wf3 hidden = true -> wf2 mask = true ->
  shape3 hidden = (b, s, h) -> shape2 mask = (b, s) ->
  mean_pooling hidden mask
  = ok (Arr2 (b, h) (zip_with (pool_row h) (rows3 hidden) (rows2 mask))).
Proof.
  intros Hwf3 Hwf2 Hs3 Hs2.
  destruct (wf3_inv _ _ _ _ Hwf3 Hs3) as [_ Hrows].
  unfold mean_pooling. rewrite Hs3, (broadcast_mask_rows _ _ _ h Hwf2 Hs2).
  cbn [rbind ok]. unfold divide, clip_min, sum_axis1, multiply.
  cbn [shape3 rows3 shape2 rows2]. rewrite Hs3. cbn [shape2 rows2].
  do 2 f_equal. apply pooled_rows.
  eapply Forall_impl; [exact Hrows|]. now intros toks [_ ?].
Qed.

Lemma pool_and_normalize_rows (hidden : ndarray3 f32) (mask : ndarray2 Z)
    (b s h : nat) :
  wf3 hidden = true -> wf2 mask = true ->
  shape3 hidden = (b, s, h) -> shape2 mask = (b, s) ->
  pool_and_normalize hidden mask
  = ok (Arr2 (b, h)
          (zip_with (fun toks mrow => normalize_row (pool_row h toks mrow))
             (rows3 hidden) (rows2 mask))).
Proof.
  intros Hwf3 Hwf2 Hs3 Hs2. unfold pool_and_normalize.
  rewrite (mean_pooling_rows _ _ _ _ _ Hwf3 Hwf2 Hs3 Hs2). cbn [rbind ok].
  rewrite normalize_rows. cbn [shape2 rows2]. do 2 f_equal.
  generalize (rows2 mask). induction (rows3 hidden) as [|toks hrows IH];
    intros [|mrow mrows]; cbn; try reflexivity.
  now rewrite IH.
Qed.

(** *** The pipeline against the specification's wording *)

Lemma foldl_zip_add_lookup (acc : list f32) (vs : list (list f32)) (j : nat)
    (a : f32) :
  Forall (fun v => length v = length acc) vs -> acc !! j = Some a ->
  foldl (zip_with F32.add) acc vs !! j
  = Some (foldl F32.add a (map (fun v => nth j v F32.zero) vs)).
Proof.
  revert acc a. induction vs as [|v vs IH]; intros acc a Hvs Ha; cbn; [exact Ha|].
  inversion Hvs as [|? ? Hv Hrest]; subst.
  assert (Hj : (j < length v)%nat).
  { rewrite Hv. eapply lookup_lt_Some; eauto. }
  destruct (lookup_lt_is_Some_2 v j Hj) as [y Hy].
  apply IH.
  - rewrite length_zip_with, Hv, Nat.min_id. exact Hrest.
  - rewrite lookup_zip_with, Ha, Hy. cbn.
    now rewrite nth_lookup, Hy.
Qed.

Lemma sum_tokens_lookup (h : nat) (vs : list (list f32)) (j : nat) :
  Forall (fun v => length v = h) vs -> (j < h)%nat ->
  sum_tokens h vs !! j
  = Some (sum_along_sequence h (map (fun v => nth j v F32.zero) vs)).
Proof.
  intros Hvs Hj. unfold sum_tokens, sum_along_sequence.
  destruct (Nat.eqb_spec h 1) as [->|_].
  - assert (j = 0%nat) as -> by lia.
    assert (Hmap : map (fun tok => hd F32.zero tok) vs
                   = map (fun v => nth 0 v F32.zero) vs).
    { clear. induction vs as [|[|x v] vs IH]; cbn; now rewrite ?IH. }
    now rewrite Hmap.
  - apply foldl_zip_add_lookup.
    + now rewrite length_replicate.
    + now apply lookup_replicate_2.
Qed.

Lemma masked_component (h : nat) (toks : list (list f32)) (mrow : list Z)
    (j : nat) :
  Forall (fun v => length v = h) toks -> (j < h)%nat ->
  map (fun v => nth j v F32.zero)
    (zip_with (zip_with F32.mul) toks (mask_row_expanded h mrow))
  = zip_with (fun tok m => F32.mul (nth j tok F32.zero) (F32.of_int m))
      toks mrow.
Proof.
  intros H Hj. revert mrow.
  induction H as [|tok toks Htok _ IH]; intros [|m mrow]; try reflexivity.
  change (mask_row_expanded h (m :: mrow))
    with (replicate h (F32.of_int m) :: mask_row_expanded h mrow).
  cbn [zip_with map]. rewrite IH. f_equal.
  assert (Hlt : (j < length tok)%nat) by lia.
  destruct (lookup_lt_is_Some_2 tok j Hlt) as [x Hx].
  rewrite !nth_lookup, lookup_zip_with, Hx, lookup_replicate_2 by exact Hj.
  reflexivity.
Qed.

Lemma mask_component (h : nat) (mrow : list Z) (j : nat) :
  (j < h)%nat ->
  map (fun v => nth j v F32.zero) (mask_row_expanded h mrow)
  = map F32.of_int mrow.
Proof.
  intros Hj. unfold mask_row_expanded.
  induction mrow as [|m mrow IH]; cbn; [reflexivity|].
  now rewrite IH, nth_lookup, lookup_replicate_2.
Qed.

Lemma pool_row_lookup (h : nat) (toks : list (list f32)) (mrow : list Z)
    (j : nat) :
  Forall (fun v => length v = h) toks -> (j < h)%nat ->
  pool_row h toks mrow !! j = Some (Spec.mean_pool_component h toks mrow j).
Proof.
  intros Hwf Hj. unfold pool_row, Spec.mean_pool_component.
  rewrite lookup_zip_with.
  rewrite (sum_tokens_lookup h _ j (masked_tokens_wf h toks mrow Hwf) Hj).
  change (map clamp_eps ?l) with (clamp_eps <$> l).
  rewrite list_lookup_fmap.
  rewrite (sum_tokens_lookup h _ j (mask_row_expanded_wf h mrow) Hj).
  rewrite masked_component, mask_component by assumption.
  cbn. unfold clamp_eps. now rewrite maximum_eps_clamp.
Qed.

Lemma length_pool_row (h : nat) (toks : list (list f32)) (mrow : list Z) :
  Forall (fun v => length v = h) toks -> length (pool_row h toks mrow) = h.
Proof.
  intros H. unfold pool_row.
  rewrite length_zip_with, length_map, !length_sum_tokens;
    auto using mask_row_expanded_wf, masked_tokens_wf. lia.
Qed.

Lemma pool_row_refines (h : nat) (toks : list (list f32)) (mrow : list Z) :
  Forall (fun v => length v = h) toks ->
  pool_row h toks mrow = Spec.mean_pool_row h toks mrow.
Proof.
  intros Hwf. apply (list_eq_same_length _ _ h).
  - unfold Spec.mean_pool_row. now rewrite length_map, length_seq.
  - now apply length_pool_row.
  - intros j x y Hj Hx Hy.
    rewrite pool_row_lookup in Hx by assumption.
    unfold Spec.mean_pool_row in Hy.
    change (map ?f ?l) with (f <$> l) in Hy.
    rewrite list_lookup_fmap, lookup_seq_lt in Hy by exact Hj.
    cbn in Hy. congruence.
Qed.

Lemma normalize_row_refines (v : list f32) :
  normalize_row v = Spec.l2_normalize v.
Proof.
  unfold normalize_row, Spec.l2_normalize, clamp_eps.
  now rewrite maximum_eps_clamp.
Qed.

End Rows.


Lemma eps_is_1e_9 :
  F32.eps = F32.div (F32.of_int 1) (F32.of_int (10 ^ 9))
  /\ F32.within F32.eps (1 # 1000000000) (1 # 10000000000000000).
Proof. split; [reflexivity|]. vm_compute. discriminate. Qed.

(** C1: on arrays of matching shapes [pool_and_normalize] computes exactly the
    masked mean over the sequence axis, divisor clamped at 1e-9, followed by
    the L2 normalisation with the norm clamped at 1e-9; on the hidden states
    [[[1,1],[3,3],[0,0]]] with mask [1,1,0] pooling gives [2,2] and the
    normalised vector is within 1e-4 of [0.7071, 0.7071]. The sums are
    NumPy's: the row [1, 2^-12 (seven times)] is normalised to
    [1 - 2^-23, ...], its eight squares being added in pairs. *)
Theorem pool_and_normalize_exact (hidden : ndarray3 f32) (mask : ndarray2 Z)
    (b s h : nat) :
  wf3 hidden = true -> wf2 mask = true ->
  shape3 hidden = (b, s, h) -> shape2 mask = (b, s) ->
  pool_and_normalize hidden mask = ok (Spec.pool_and_normalize hidden mask)
  /\ mean_pooling ex_hidden ex_mask
     = ok (Arr2 (1, 2)%nat [[F32.of_int 2; F32.of_int 2]])
  /\ (exists x y,
        pool_and_normalize ex_hidden ex_mask = ok (Arr2 (1, 2)%nat [[x; y]])
        /\ F32.within x (7071 # 10000) (1 # 10000)
        /\ F32.within y (7071 # 10000) (1 # 10000))
  /\ hd_error (rows2 (normalize (Arr2 (1, 8)%nat [lanes_row])))
     = Some (map (fun p => S754_finite false 16777214 p)
               [-24; -36; -36; -36; -36; -36; -36; -36]).
Proof.
  intros Hwf3 Hwf2 Hs3 Hs2. split; [|split; [|split]]; [| | |reflexivity].
  - rewrite (pool_and_normalize_rows _ _ _ _ _ Hwf3 Hwf2 Hs3 Hs2).
    unfold Spec.pool_and_normalize. rewrite Hs3. do 2 f_equal.
    destruct (wf3_inv _ _ _ _ Hwf3 Hs3) as [_ Hrows].
    generalize (rows2 mask).
    induction Hrows as [|toks hrows [_ Htoks] _ IH]; intros [|mrow mrows];
      cbn [zip_with]; try reflexivity.
    now rewrite IH, pool_row_refines, normalize_row_refines.
  - reflexivity.
  - eexists _, _. split; [vm_compute; reflexivity|].
    split; vm_compute; discriminate.
Qed.

Lemma pool_and_normalize_exact_witness :
  pool_and_normalize ex_hidden ex_mask
  = ok (Spec.pool_and_normalize ex_hidden ex_mask).
Proof.
  apply (pool_and_normalize_exact ex_hidden ex_mask 1 3 2); reflexivity.
Defined.

(** ** Zero vectors and all-padding rows *)

Section Padding.

Lemma sums_to_zeros (l : list f32) (x : f32) :
  sums_to l x -> is_zero_vector l -> F32.is_zero x = true.
Proof.
  intros Hsum Hl.
  apply (sums_to_closed (fun y => F32.is_zero y = true) l x);
    auto using add_zero_zero.
Qed.

Lemma squares_zero (v : list f32) :
  is_zero_vector v -> is_zero_vector (map (fun x => F32.mul x x) v).
Proof.
  unfold is_zero_vector. induction 1 as [|x v Hx _ IH]; cbn; constructor;
    [|exact IH].
  now rewrite mul_self_zero.
Qed.

Lemma norm_row_zeros (v : list f32) :
  is_zero_vector v -> F32.is_zero (norm_row v) = true.
Proof.
  intros Hv. unfold norm_row.
  pose proof (sums_to_zeros _ _ (sums_to_add_reduce _) (squares_zero v Hv)) as Hs.
  destruct (add_reduce _); cbn in *; congruence.
Qed.

Lemma normalize_row_zeros (v : list f32) :
  is_zero_vector v -> is_zero_vector (normalize_row v).
Proof.
  intros Hv. unfold normalize_row, clamp_eps.
  rewrite (maximum_zero_eps _ (norm_row_zeros v Hv)).
  unfold is_zero_vector in *.
  induction Hv as [|x v Hx _ IH]; cbn; constructor; [|exact IH].
  now apply div_zero_eps.
Qed.

Lemma length_normalize_row (v : list f32) :
  length (normalize_row v) = length v.
Proof. unfold normalize_row. now rewrite length_map. Qed.

Lemma masked_zero (toks : list (list f32)) (mrow : list Z) (j : nat) :
  Forall (Forall (fun x => F32.is_finite x = true)) toks ->
  Forall (fun m => m = 0) mrow ->
  is_zero_vector
    (zip_with (fun tok m => F32.mul (nth j tok F32.zero) (F32.of_int m))
       toks mrow).
Proof.
  intros Hfin. revert mrow.
  induction Hfin as [|tok toks Htok _ IH]; intros mrow Hm; [constructor|].
  destruct Hm as [|m mrow -> Hm]; cbn [zip_with]; constructor.
  - rewrite of_int_0. apply mul_zero_r.
    rewrite nth_lookup. destruct (tok !! j) as [x|] eqn:Hx; cbn; [|reflexivity].
    eapply Forall_lookup_1 in Htok; eauto.
  - now apply IH.
Qed.

Lemma mask_zero (mrow : list Z) :
  Forall (fun m => m = 0) mrow -> is_zero_vector (map F32.of_int mrow).
Proof. induction 1 as [|m mrow -> _ IH]; cbn; constructor; auto. Qed.

(** An all-padding row of finite hidden states pools to zeros. *)
Lemma pool_row_all_padding (h : nat) (toks : list (list f32)) (mrow : list Z) :
  Forall (fun v => length v = h) toks ->
  Forall (Forall (fun x => F32.is_finite x = true)) toks ->
  Forall (fun m => m = 0) mrow ->
  is_zero_vector (pool_row h toks mrow).
Proof.
  intros Hwf Hfin Hm. apply Forall_lookup_2. intros j x Hx.
  assert (Hj : (j < h)%nat).
  { rewrite <- (length_pool_row h toks mrow Hwf). eapply lookup_lt_Some; eauto. }
  rewrite pool_row_lookup in Hx by assumption. injection Hx as <-.
  unfold Spec.mean_pool_component. rewrite <- maximum_eps_clamp.
  rewrite (maximum_zero_eps _
             (sums_to_zeros _ _ (sums_to_sequence h _) (mask_zero _ Hm))).
  eapply div_zero_eps, sums_to_zeros; [apply sums_to_sequence|].
  now apply masked_zero.
Qed.


Lemma clip_min_clamped (a : ndarray2 f32) : all_clamped (clip_min a F32.eps).
Proof.
  unfold all_clamped, clip_min. cbn [rows2].
  induction (rows2 a) as [|v rows IH]; cbn; constructor; [|exact IH].
  induction v as [|x v IHv]; cbn; constructor; [|exact IHv].
  apply maximum_eps_nonzero.
Qed.

End Padding.

(** ** Rounding to binary32 never invents a NaN *)

Section Rounding.

Lemma digits2_pos_size (p : positive) : digits2_pos p = Pos.size p.
Proof. induction p as [p IH|p IH|]; cbn; now rewrite ?IH. Qed.

Lemma Zdigits2_log2 (p : positive) : Zdigits2 (Zpos p) = Z.log2 (Zpos p) + 1.
Proof.
  destruct p as [p|p|]; cbn [Zdigits2 digits2_pos Z.log2];
    rewrite ?digits2_pos_size; lia.
Qed.

(** [Zdigits2 m] is the least [k] with [m < 2^k]. *)
Lemma Zdigits2_le_iff (m k : Z) :
  0 <= m -> 0 <= k -> Zdigits2 m <= k <-> m < 2 ^ k.
Proof.
  intros Hm Hk. destruct m as [|p|p]; [|clear Hm|lia].
  - cbn. split; [intros _; apply Z.pow_pos_nonneg; lia | lia].
  - rewrite Zdigits2_log2.
    rewrite (Z.log2_lt_pow2 (Zpos p) k) by lia. lia.
Qed.

Lemma Zdigits2_nonneg (m : Z) : 0 <= Zdigits2 m.
Proof. destruct m; cbn; lia. Qed.

Lemma Zdigits2_upper (m : Z) : 0 <= m -> m < 2 ^ Zdigits2 m.
Proof.
  intros Hm. apply Zdigits2_le_iff; [exact Hm | apply Zdigits2_nonneg | lia].
Qed.

Lemma Zdigits2_lower (m : Z) : 0 < m -> 2 ^ (Zdigits2 m - 1) <= m.
Proof.
  intros Hm. destruct (Z_lt_le_dec m (2 ^ (Zdigits2 m - 1))) as [Hlt|]; [|lia].
  assert (0 < Zdigits2 m) by (destruct m; cbn in *; lia).
  apply Zdigits2_le_iff in Hlt; lia.
Qed.

Lemma pow2_pos (k : Z) : 0 <= k -> 0 < 2 ^ k.
Proof. intros. apply Z.pow_pos_nonneg; lia. Qed.

Lemma pow2_le (a b : Z) : 0 <= a <= b -> 2 ^ a <= 2 ^ b.
Proof. intros. apply Z.pow_le_mono_r; lia. Qed.

Lemma pow2_lt_inv (a b : Z) : 0 <= b -> 2 ^ a < 2 ^ b -> a < b.
Proof. intros Hb H. apply (Z.pow_lt_mono_r_iff 2); lia. Qed.

(** Dropping [b] low bits of a number below [2^a]. *)
Lemma div_pow2_lt (m a b : Z) :
  0 <= m < 2 ^ a -> 0 <= b <= a -> m / 2 ^ b < 2 ^ (a - b).
Proof.
  intros Hm Hb. apply Z.div_lt_upper_bound; [now apply pow2_pos|].
  rewrite <- Z.pow_add_r by lia. now replace (b + (a - b)) with a by lia.
Qed.

Lemma div_pow2_pos (m a b : Z) :
  2 ^ a <= m -> 0 <= b <= a -> 0 < m / 2 ^ b.
Proof.
  intros Hm Hb. apply Z.div_str_pos. split; [now apply pow2_pos|].
  pose proof (pow2_le b a Hb). lia.
Qed.

Lemma shr_1_m (mrs : shr_record) :
  0 <= shr_m mrs -> shr_m (shr_1 mrs) = shr_m mrs / 2.
Proof.
  destruct mrs as [m r s]. cbn [shr_m]. intros Hm.
  destruct m as [|[p|p|]|p]; cbn [shr_1 shr_m]; try reflexivity; try lia.
  - now rewrite Pos2Z.inj_xI, Z.mul_comm, Z.div_add_l by lia.
  - now rewrite Pos2Z.inj_xO, Z.mul_comm, Z.div_mul by lia.
Qed.

Lemma iter_shr_1_m (p : positive) (mrs : shr_record) :
  0 <= shr_m mrs ->
  shr_m (iter_pos shr_1 p mrs) = shr_m mrs / 2 ^ Zpos p.
Proof.
  revert mrs. induction p as [p IH|p IH|]; intros mrs Hm; cbn [iter_pos].
  - assert (H1 : 0 <= shr_m (shr_1 mrs)).
    { rewrite shr_1_m by exact Hm. apply Z.div_pos; lia. }
    assert (H2 : 0 <= shr_m (iter_pos shr_1 p (shr_1 mrs))).
    { rewrite IH by exact H1. apply Z.div_pos; [exact H1 | apply pow2_pos; lia]. }
    rewrite IH, IH, shr_1_m by assumption.
    rewrite !Z.div_div by (try apply pow2_pos; lia).
    f_equal. change 2 with (2 ^ 1) at 1.
    rewrite <- !Z.pow_add_r by lia. f_equal. lia.
  - assert (H1 : 0 <= shr_m (iter_pos shr_1 p mrs)).
    { rewrite IH by exact Hm. apply Z.div_pos; [exact Hm | apply pow2_pos; lia]. }
    rewrite IH, IH by assumption.
    rewrite Z.div_div by (try apply pow2_pos; lia).
    f_equal. rewrite <- Z.pow_add_r by lia. f_equal. lia.
  - rewrite shr_1_m by exact Hm. reflexivity.
Qed.

Lemma shr_record_of_loc_m (m : Z) (l : location) :
  shr_m (shr_record_of_loc m l) = m.
Proof. destruct l as [|[]]; reflexivity. Qed.

(** The first half of rounding: the mantissa is cut down to the exponent
    binary32 has at this magnitude. *)
Lemma shr_fexp_spec (m e : Z) (l : location) :
  0 <= m ->
  exists mrs e1,
    shr_fexp F32.prec F32.emax m e l = (mrs, e1)
    /\ e1 = Z.max e (Z.max (Zdigits2 m + e - 24) (-149))
    /\ shr_m mrs = m / 2 ^ (e1 - e).
Proof.
  intros Hm. unfold shr_fexp, shr, fexp, emin, F32.prec, F32.emax.
  change (3 - 128 - 24) with (-149).
  destruct (Z.max (Zdigits2 m + e - 24) (-149) - e) as [|p|p] eqn:Hn.
  - eexists _, _. split; [reflexivity|]. split; [lia|].
    rewrite shr_record_of_loc_m.
    rewrite Z.sub_diag. now rewrite Z.div_1_r.
  - eexists _, _. split; [reflexivity|]. split; [lia|].
    rewrite iter_shr_1_m by now rewrite shr_record_of_loc_m.
    rewrite shr_record_of_loc_m. f_equal. f_equal. lia.
  - eexists _, _. split; [reflexivity|]. split; [lia|].
    rewrite shr_record_of_loc_m.
    rewrite Z.sub_diag. now rewrite Z.div_1_r.
Qed.

Lemma round_nearest_even_bounds (m : Z) (l : location) :
  m <= round_nearest_even m l <= m + 1.
Proof.
  unfold round_nearest_even. destruct l as [|[]]; try lia.
  destruct (Z.even m); lia.
Qed.

(** What [binary_round_aux] returns for a mantissa that is not negative:
    the two cuts, and a zero, a finite float or an infinity of the given
    sign. *)
Lemma binary_round_aux_spec (sx : bool) (m e : Z) (l : location) :
  0 <= m ->
  exists m1 m2 e1 e2 m3,
    e1 = Z.max e (Z.max (Zdigits2 m + e - 24) (-149))
    /\ m1 = m / 2 ^ (e1 - e)
    /\ m1 <= m2 <= m1 + 1
    /\ e2 = Z.max e1 (Z.max (Zdigits2 m2 + e1 - 24) (-149))
    /\ m3 = m2 / 2 ^ (e2 - e1)
    /\ binary_round_aux F32.prec F32.emax sx m e l
       = match m3 with
         | Z0 => S754_zero sx
         | Zpos p => if e2 <=? 104 then S754_finite sx p e2
                     else S754_infinity sx
         | Zneg _ => S754_nan
         end.
Proof.
  intros Hm. unfold binary_round_aux.
  destruct (shr_fexp_spec m e l Hm) as (mrs & e1 & -> & He1 & Hm1).
  set (m2 := round_nearest_even (shr_m mrs) (loc_of_shr_record mrs)).
  assert (H1 : 0 <= shr_m mrs).
  { rewrite Hm1. apply Z.div_pos; [exact Hm | apply pow2_pos; lia]. }
  pose proof (round_nearest_even_bounds (shr_m mrs) (loc_of_shr_record mrs))
    as Hr. fold m2 in Hr.
  destruct (shr_fexp_spec m2 e1 loc_Exact ltac:(lia)) as (mrs2 & e2 & -> & He2 & Hm3).
  exists (shr_m mrs), m2, e1, e2, (shr_m mrs2).
  repeat split; try assumption; try lia.
Qed.

Lemma binary_round_aux_nonneg (sx : bool) (m e : Z) (l : location) :
  0 <= m ->
  binary_round_aux F32.prec F32.emax sx m e l = S754_zero sx
  \/ binary_round_aux F32.prec F32.emax sx m e l = S754_infinity sx
  \/ exists p e', binary_round_aux F32.prec F32.emax sx m e l
                  = S754_finite sx p e'.
Proof.
  intros Hm.
  destruct (binary_round_aux_spec sx m e l Hm)
    as (m1 & m2 & e1 & e2 & m3 & He1 & Hm1 & Hm2 & He2 & Hm3 & ->).
  assert (0 <= m1).
  { subst m1. apply Z.div_pos; [exact Hm | apply pow2_pos; lia]. }
  assert (0 <= m3).
  { subst m3. apply Z.div_pos; [lia | apply pow2_pos; lia]. }
  destruct m3 as [|p|p]; [auto| |lia].
  destruct (e2 <=? 104); eauto.
Qed.

(** No overflow below [2^127]. *)
Lemma binary_round_aux_finite (sx : bool) (m e : Z) (l : location) :
  0 <= m -> e <= 104 -> Zdigits2 m + e <= 127 ->
  F32.is_finite (binary_round_aux F32.prec F32.emax sx m e l) = true.
Proof.
  intros Hm He Hd.
  destruct (binary_round_aux_spec sx m e l Hm)
    as (m1 & m2 & e1 & e2 & m3 & He1 & Hm1 & Hm2 & He2 & Hm3 & ->).
  pose proof (Zdigits2_nonneg m) as Hd0.
  pose proof (Zdigits2_upper m Hm) as Hup.
  assert (He1' : e <= e1 <= 104) by lia.
  assert (Hm1' : 0 <= m1 < 2 ^ (127 - e1)).
  { subst m1. split; [apply Z.div_pos; [exact Hm | apply pow2_pos; lia]|].
    replace (127 - e1) with ((127 - e) - (e1 - e)) by lia.
    apply div_pow2_lt; [|lia].
    pose proof (pow2_le (Zdigits2 m) (127 - e)). lia. }
  assert (Hd2 : Zdigits2 m2 <= 128 - e1).
  { apply Zdigits2_le_iff; [lia | lia |].
    replace (128 - e1) with (127 - e1 + 1) by lia.
    rewrite Z.pow_add_r by lia. lia. }
  assert (He2' : e2 <= 104) by lia.
  assert (0 <= m3).
  { subst m3. apply Z.div_pos; [lia | apply pow2_pos; lia]. }
  destruct m3 as [|p|p]; [reflexivity| |lia].
  destruct (Z.leb_spec e2 104); [reflexivity | lia].
Qed.

(** Overflow from [2^129] on. *)
Lemma binary_round_aux_overflow (sx : bool) (m e : Z) (l : location) :
  0 < m -> 130 <= Zdigits2 m + e ->
  binary_round_aux F32.prec F32.emax sx m e l = S754_infinity sx.
Proof.
  intros Hm Hd.
  destruct (binary_round_aux_spec sx m e l ltac:(lia))
    as (m1 & m2 & e1 & e2 & m3 & He1 & Hm1 & Hm2 & He2 & Hm3 & ->).
  pose proof (Zdigits2_lower m Hm) as Hlo.
  assert (0 < Zdigits2 m) by (destruct m; cbn in *; lia).
  assert (Hm1' : 0 < m1).
  { subst m1. apply (div_pow2_pos m (Zdigits2 m - 1)); [exact Hlo | lia]. }
  assert (Hm2' : 0 < m2) by lia.
  pose proof (Zdigits2_lower m2 Hm2') as Hlo2.
  assert (0 < Zdigits2 m2) by (destruct m2; cbn in *; lia).
  assert (Hm3' : 0 < m3).
  { subst m3. apply (div_pow2_pos m2 (Zdigits2 m2 - 1)); [exact Hlo2 | lia]. }
  destruct m3 as [|p|p]; [lia| |lia].
  destruct (Z.leb_spec e2 104); [lia | reflexivity].
Qed.

End Rounding.

(** ** Where NaN and Inf cannot come from *)

Section Finite.

Lemma mul_self_nonneg (x : f32) :
  F32.is_finite x = true -> nonneg (F32.mul x x) = true.
Proof.
  destruct x as [s|s| |s m e]; try discriminate; intros _; [reflexivity|].
  unfold F32.mul. cbn [SFmul]. rewrite xorb_nilpotent.
  destruct (binary_round_aux_nonneg false (Zpos (m * m)) (e + e) loc_Exact)
    as [-> | [-> | (p & e' & ->)]]; [lia | reflexivity..].
Qed.

(** From [2^74] on the square overflows. *)
Lemma mul_self_overflow (x : f32) :
  75 <= F32.mag x -> F32.mul x x = S754_infinity false.
Proof.
  destruct x as [s|s| |s m e]; cbn [F32.mag]; try lia. intros Hmag.
  unfold F32.mul. cbn [SFmul]. rewrite xorb_nilpotent.
  apply binary_round_aux_overflow; [lia|].
  change (Zpos (digits2_pos m)) with (Zdigits2 (Zpos m)) in Hmag.
  pose proof (Zdigits2_lower (Zpos m) ltac:(lia)) as Hlo.
  pose proof (Zdigits2_nonneg (Zpos m)) as H0.
  assert (0 < Zdigits2 (Zpos m)) by (cbn; lia).
  destruct (Z_le_gt_dec (Zdigits2 (Zpos (m * m))) (2 * Zdigits2 (Zpos m) - 2))
    as [Hle|Hgt]; [|lia].
  apply Zdigits2_le_iff in Hle; [|lia..].
  replace (2 * Zdigits2 (Zpos m) - 2)
    with ((Zdigits2 (Zpos m) - 1) + (Zdigits2 (Zpos m) - 1)) in Hle by lia.
  rewrite Z.pow_add_r, Pos2Z.inj_mul in Hle by lia.
  pose proof (pow2_pos (Zdigits2 (Zpos m) - 1) ltac:(lia)). nia.
Qed.

Lemma add_nonneg (a b : f32) :
  nonneg a = true -> nonneg b = true -> nonneg (F32.add a b) = true.
Proof.
  destruct a as [sa|[]| |[] ma ea]; try discriminate;
    destruct b as [sb|[]| |[] mb eb]; try discriminate; intros _ _;
    try reflexivity; try (destruct sa; reflexivity);
    try (destruct sa, sb; reflexivity).
  unfold F32.add. cbn [SFadd cond_Zopp].
  change (Zpos ?p + Zpos ?q) with (Zpos (p + q)).
  cbn [binary_normalize]. unfold binary_round.
  destruct (shl_align _ _ _) as [mz ez].
  destruct (binary_round_aux_nonneg false (Zpos mz) ez loc_Exact)
    as [-> | [-> | (p & e' & ->)]]; [lia | reflexivity..].
Qed.

Lemma add_inf_l (b : f32) :
  nonneg b = true ->
  F32.add (S754_infinity false) b = S754_infinity false.
Proof. destruct b as [?|[]| |[] ? ?]; try discriminate; reflexivity. Qed.

Lemma add_inf_r (a : f32) :
  nonneg a = true ->
  F32.add a (S754_infinity false) = S754_infinity false.
Proof. destruct a as [?|[]| |[] ? ?]; try discriminate; reflexivity. Qed.

Lemma sums_to_nonneg (l : list f32) (x : f32) :
  sums_to l x -> Forall (fun y => nonneg y = true) l -> nonneg x = true.
Proof.
  apply (sums_to_closed (fun y => nonneg y = true));
    [reflexivity | exact add_nonneg].
Qed.

(** One [+Inf] among terms that are not negative makes the sum [+Inf]. *)
Lemma sums_to_inf (l : list f32) (x : f32) :
  sums_to l x -> Forall (fun y => nonneg y = true) l ->
  Exists (fun y => y = S754_infinity false) l -> x = S754_infinity false.
Proof.
  induction 1 as [|a|l1 l2 a b H1 IH1 H2 IH2|l l' a Hp _ IH]; intros Hall Hex.
  - inversion Hex.
  - inversion Hex as [? ? Ha|? ? Ha]; [exact Ha | inversion Ha].
  - apply Forall_app in Hall as [Ha1 Ha2]. apply Exists_app in Hex as [He|He].
    + rewrite (IH1 Ha1 He). apply add_inf_l. eapply sums_to_nonneg; eauto.
    + rewrite (IH2 Ha2 He). apply add_inf_r. eapply sums_to_nonneg; eauto.
  - apply IH; now rewrite Hp.
Qed.

Lemma sqrt_nonneg (x : f32) : nonneg x = true -> nonneg (F32.sqrt x) = true.
Proof.
  destruct x as [s|s| |s m e]; try discriminate; intros Hx; try reflexivity;
    destruct s; try discriminate; try reflexivity.
  unfold F32.sqrt. cbn [SFsqrt]. unfold SFsqrt_core_binary.
  set (e' := Z.min _ _). set (m' := match e - 2 * e' with 0 => _ | _ => _ end).
  assert (Hm' : 0 <= m').
  { subst m'. destruct (e - 2 * e'); try lia. now apply Z.shiftl_nonneg. }
  pose proof (Z.sqrtrem_spec m' Hm') as Hs.
  destruct (Z.sqrtrem m') as [q r].
  destruct (binary_round_aux_nonneg false q e'
              (if r =? 0 then loc_Exact
               else loc_Inexact (if r <=? q then Lt else Gt)))
    as [-> | [-> | (p & e'' & ->)]]; [nia | reflexivity..].
Qed.

(** A clamped divisor is [+Inf] or a positive float not far below [1e-9],
    unless what was clamped is a NaN. *)
Lemma clamp_far_from_zero (x : f32) :
  F32.is_nan x = false -> far_from_zero (clamp_eps x).
Proof.
  intros Hx. unfold clamp_eps. rewrite maximum_eps_clamp. unfold Spec.clamp.
  destruct (SFltb x F32.eps) eqn:Hlt; [cbn; lia|].
  unfold SFltb, F32.eps in Hlt.
  destruct x as [s|s| |s m e]; try destruct s; cbn [SFcompare] in Hlt;
    cbn [F32.is_nan far_from_zero] in Hx |- *;
    try discriminate; try exact I.
  destruct (Z.compare_spec e (-53)); first [lia | discriminate].
Qed.

Lemma div_core_bounds (mx my : positive) (ex ey : Z) :
  (Zdigits2 (Zpos mx) + ex) - (Zdigits2 (Zpos my) + ey) <= 126 ->
  exists q e' l,
    SFdiv_core_binary F32.prec F32.emax (Zpos mx) ex (Zpos my) ey = (q, e', l)
    /\ 0 <= q /\ e' <= 104 /\ Zdigits2 q + e' <= 127.
Proof.
  intros Hmag. unfold SFdiv_core_binary, fexp, emin, F32.prec, F32.emax.
  change (3 - 128 - 24) with (-149).
  set (dx := Zdigits2 (Zpos mx)) in *. set (dy := Zdigits2 (Zpos my)) in *.
  set (e' := Z.min _ _). set (s := ex - ey - e').
  set (m' := match s with 0 => _ | _ => _ end).
  assert (Hs : 0 <= s) by (subst s e'; lia).
  assert (Hm' : m' = Zpos mx * 2 ^ s).
  { subst m'. destruct s as [|p|p] eqn:Es; [lia | | lia].
    now rewrite Z.shiftl_mul_pow2 by lia. }
  pose proof (Z_div_mod m' (Zpos my) eq_refl) as Hdiv.
  destruct (Z.div_eucl m' (Zpos my)) as [q r].
  destruct Hdiv as [Hq Hr].
  pose proof (pow2_pos s Hs) as Hps.
  assert (Hq0 : 0 <= q) by nia.
  assert (He' : e' <= 104) by (subst e'; lia).
  exists q, e', (new_location (Zpos my) r). repeat split; try assumption.
  enough (Zdigits2 q <= 127 - e') by lia.
  apply Zdigits2_le_iff; [exact Hq0 | lia |].
  destruct (Z_lt_le_dec q (2 ^ (127 - e'))) as [|Hge]; [assumption|exfalso].
  pose proof (Zdigits2_upper (Zpos mx) ltac:(lia)) as Hux. fold dx in Hux.
  pose proof (Zdigits2_lower (Zpos my) ltac:(lia)) as Hly. fold dy in Hly.
  assert (0 < dy) by (subst dy; cbn; lia).
  assert (0 < dx) by (subst dx; cbn; lia).
  pose proof (pow2_pos (dy - 1) ltac:(lia)) as Hpy.
  pose proof (pow2_pos (127 - e') ltac:(lia)) as Hpk.
  assert (H1 : 2 ^ (127 - e') * 2 ^ (dy - 1) <= q * Zpos my) by nia.
  assert (H2 : m' < 2 ^ dx * 2 ^ s) by nia.
  rewrite <- Z.pow_add_r in H1, H2 by lia.
  assert (H3 : 2 ^ (127 - e' + (dy - 1)) < 2 ^ (dx + s)) by nia.
  apply pow2_lt_inv in H3; [|lia]. subst s. lia.
Qed.

(** A finite float below [2^74] divided by a clamped divisor is finite. *)
Lemma div_finite (x d : f32) :
  F32.is_finite x = true -> F32.mag x <= 74 -> far_from_zero d ->
  F32.is_finite (F32.div x d) = true.
Proof.
  destruct x as [sx|sx| |sx mx ex]; try discriminate; intros _ Hmag Hd;
    destruct d as [sd|sd| |sd md ed]; try destruct sd; cbn in Hd;
    try contradiction; try reflexivity.
  unfold F32.div. cbn [SFdiv]. cbn [F32.mag] in Hmag.
  destruct (div_core_bounds mx md ex ed) as (q & e' & l & -> & Hq & He & Hdq).
  { cbn [Zdigits2]. lia. }
  now apply binary_round_aux_finite.
Qed.

Lemma div_by_inf (x : f32) :
  F32.is_finite x = true ->
  F32.is_finite (F32.div x (S754_infinity false)) = true.
Proof. destruct x; try discriminate; reflexivity. Qed.

(** [normalize] never turns finite numbers into NaN or Inf. *)
Lemma normalize_row_finite (v : list f32) :
  Forall (fun x => F32.is_finite x = true) v ->
  Forall (fun x => F32.is_finite x = true) (normalize_row v).
Proof.
  intros Hfin. unfold normalize_row.
  set (sq := map (fun x => F32.mul x x) v).
  assert (Hsq : Forall (fun y => nonneg y = true) sq).
  { subst sq. apply Forall_map. cbn.
    eapply Forall_impl; [exact Hfin|]. intros x. apply mul_self_nonneg. }
  pose proof (sums_to_add_reduce sq) as Hsum.
  pose proof (sums_to_nonneg _ _ Hsum Hsq) as Hs.
  pose proof (sqrt_nonneg _ Hs) as Hn.
  assert (Hnan : F32.is_nan (norm_row v) = false).
  { unfold norm_row. fold sq. now destruct (F32.sqrt (add_reduce sq)). }
  destruct (Forall_Exists_dec (fun x => F32.mag x <= 74)
              (fun x => F32.mag x > 74)
              (fun x => Z_le_gt_dec (F32.mag x) 74) v) as [Hsmall|Hbig].
  - apply Forall_map. cbn. rewrite Forall_forall in *. intros x Hx.
    apply div_finite; auto.
    now apply clamp_far_from_zero.
  - assert (Hinf : norm_row v = S754_infinity false).
    { unfold norm_row. fold sq. rewrite (sums_to_inf _ _ Hsum Hsq); [reflexivity|].
      subst sq. apply Exists_exists in Hbig as (x & Hx & Hgt).
      apply Exists_exists. exists (F32.mul x x). split.
      - apply list_elem_of_In, in_map_iff. exists x.
        split; [reflexivity | now apply list_elem_of_In].
      - apply mul_self_overflow. lia. }
    rewrite Hinf. apply Forall_map. cbn.
    eapply Forall_impl; [exact Hfin|]. intros x. apply div_by_inf.
Qed.

Lemma of_int_nonneg (z : Z) : 0 <= z -> nonneg (F32.of_int z) = true.
Proof.
  intros Hz. destruct z as [|p|p]; [reflexivity| |lia].
  unfold F32.of_int. cbn [binary_normalize]. unfold binary_round.
  destruct (shl_align _ _ _) as [mz ez].
  destruct (binary_round_aux_nonneg false (Zpos mz) ez loc_Exact)
    as [-> | [-> | (q & e' & ->)]]; [lia | reflexivity..].
Qed.

(** Masked sums below [2^74] over a mask without negative entries pool to
    finite numbers. *)
Lemma pool_row_finite (h : nat) (toks : list (list f32)) (mrow : list Z) :
  Forall (fun v => length v = h) toks ->
  Forall (fun m => 0 <= m) mrow ->
  Forall (fun x => F32.is_finite x = true /\ F32.mag x <= 74)
    (sum_tokens h (zip_with (zip_with F32.mul) toks (mask_row_expanded h mrow))) ->
  Forall (fun x => F32.is_finite x = true) (pool_row h toks mrow).
Proof.
  intros Hwf Hm Hsums. apply Forall_lookup_2. intros j x Hx.
  assert (Hj : (j < h)%nat).
  { rewrite <- (length_pool_row h toks mrow Hwf). eapply lookup_lt_Some; eauto. }
  pose proof (sum_tokens_lookup h _ j (masked_tokens_wf h toks mrow Hwf) Hj)
    as Hsum.
  pose proof (Forall_lookup_1 _ _ _ _ Hsums Hsum) as [Hfin Hmag].
  unfold pool_row in Hx. rewrite lookup_zip_with, Hsum in Hx.
  change (map clamp_eps ?l) with (clamp_eps <$> l) in Hx.
  rewrite list_lookup_fmap in Hx.
  rewrite (sum_tokens_lookup h _ j (mask_row_expanded_wf h mrow) Hj) in Hx.
  rewrite mask_component in Hx by assumption.
  cbn in Hx. injection Hx as <-.
  apply div_finite; [exact Hfin | exact Hmag |].
  apply clamp_far_from_zero.
  assert (Hc : nonneg (sum_along_sequence h (map F32.of_int mrow)) = true).
  { apply (sums_to_nonneg _ _ (sums_to_sequence h _)).
    apply Forall_map. cbn. eapply Forall_impl; [exact Hm|].
    intros z. apply of_int_nonneg. }
  now destruct (sum_along_sequence h (map F32.of_int mrow)).
Qed.

End Finite.

(** C6 (as stated, refuted): two finite hidden states whose float32 sum
    overflows pool to +Inf, and normalising +Inf gives NaN. *)
Lemma pool_and_normalize_overflow_nan :
  wf3 overflow_hidden = true /\ wf2 overflow_mask = true
  /\ all_finite overflow_hidden
  /\ mean_pooling overflow_hidden overflow_mask
     = ok (Arr2 (1, 1)%nat [[S754_infinity false]])
  /\ pool_and_normalize overflow_hidden overflow_mask
     = ok (Arr2 (1, 1)%nat [[F32.nan]]).
Proof.
  repeat split; try reflexivity.
  unfold all_finite, overflow_hidden. cbn [rows3].
  repeat constructor.
Qed.

(** C6 (amended): [mean_pooling] divides the masked sums by the mask sums
    clamped below at 1e-9, [normalize] divides each pooled row by its norm
    clamped below at 1e-9, and no clamped divisor is a zero. A row whose
    masked sums are finite and below 2^74 in magnitude, under a mask without
    negative entries, comes out as finite numbers. Normalisation never
    brings in a NaN or an Inf: a pooled row of finite numbers comes out as
    finite numbers, a pooled row of zeros as zeros, and so does an
    all-padding row of finite hidden states. *)
Theorem divisors_clamped_no_division_by_zero (hidden : ndarray3 f32)
    (mask : ndarray2 Z) (b s h : nat) :
  wf3 hidden = true -> wf2 mask = true ->
  shape3 hidden = (b, s, h) -> shape2 mask = (b, s) ->
  exists pooled out,
    mean_pooling hidden mask = ok pooled
    /\ pool_and_normalize hidden mask = ok out
    /\ (forall i toks mrow,
          rows3 hidden !! i = Some toks -> rows2 mask !! i = Some mrow ->
          let sums :=
            sum_tokens h
              (zip_with (zip_with F32.mul) toks (mask_row_expanded h mrow)) in
          let counts := sum_tokens h (mask_row_expanded h mrow) in
          rows2 pooled !! i
          = Some (zip_with F32.div sums (map Spec.clamp counts))
          /\ Forall clamped (map Spec.clamp counts))
    /\ (forall i v,
          rows2 pooled !! i = Some v ->
          rows2 out !! i
          = Some (map (fun x => F32.div x (Spec.clamp (norm_row v))) v)
          /\ clamped (Spec.clamp (norm_row v)))
    /\ (forall i toks mrow,
          rows3 hidden !! i = Some toks -> rows2 mask !! i = Some mrow ->
          Forall (fun m => 0 <= m) mrow ->
          Forall (fun x => F32.is_finite x = true /\ F32.mag x <= 74)
            (sum_tokens h
               (zip_with (zip_with F32.mul) toks (mask_row_expanded h mrow))) ->
          exists row, rows2 out !! i = Some row
                      /\ Forall (fun x => F32.is_finite x = true) row)
    /\ (forall i v,
          rows2 pooled !! i = Some v ->
          Forall (fun x => F32.is_finite x = true) v ->
          exists row, rows2 out !! i = Some row
                      /\ Forall (fun x => F32.is_finite x = true) row)
    /\ (forall i v,
          rows2 pooled !! i = Some v -> is_zero_vector v ->
          exists row, rows2 out !! i = Some row /\ is_zero_vector row)
    /\ (forall i toks mrow,
          rows3 hidden !! i = Some toks -> rows2 mask !! i = Some mrow ->
          Forall (Forall (fun x => F32.is_finite x = true)) toks ->
          Forall (fun m => m = 0) mrow ->
          exists row, rows2 out !! i = Some row /\ is_zero_vector row).
Proof.
  intros Hwf3 Hwf2 Hs3 Hs2.
  pose proof (mean_pooling_rows _ _ _ _ _ Hwf3 Hwf2 Hs3 Hs2) as Hp.
  eexists _, _. split; [exact Hp|].
  split; [unfold pool_and_normalize; rewrite Hp; reflexivity|].
  rewrite normalize_rows. cbn [rows2 shape2].
  assert (Hclamp : forall x, clamped (Spec.clamp x)).
  { intros x. rewrite <- maximum_eps_clamp. apply maximum_eps_nonzero. }
  assert (Hrow : forall i (v : list f32) rows,
             rows !! i = Some v ->
             map normalize_row rows !! i = Some (normalize_row v)).
  { intros i v rows Hv. change (map ?f ?l) with (f <$> l).
    now rewrite list_lookup_fmap, Hv. }
  assert (Hlen : forall i toks, rows3 hidden !! i = Some toks ->
                                Forall (fun v => length v = h) toks).
  { intros i toks Htoks. destruct (wf3_inv _ _ _ _ Hwf3 Hs3) as [_ Hrows].
    rewrite Forall_forall in Hrows.
    apply (Hrows toks). apply list_elem_of_lookup. eauto. }
  split; [|split; [|split; [|split; [|split]]]].
  - intros i toks mrow Htoks Hmrow. cbn zeta. split.
    + rewrite lookup_zip_with, Htoks, Hmrow. cbn. unfold pool_row.
      do 2 f_equal. apply map_ext. intros x. apply maximum_eps_clamp.
    + apply Forall_map. apply Forall_forall. intros x _. apply Hclamp.
  - intros i v Hv. split; [|apply Hclamp].
    rewrite (Hrow _ _ _ Hv). unfold normalize_row, clamp_eps.
    now rewrite maximum_eps_clamp.
  - intros i toks mrow Htoks Hmrow Hm Hsums.
    exists (normalize_row (pool_row h toks mrow)). split.
    + apply Hrow. rewrite lookup_zip_with, Htoks, Hmrow. reflexivity.
    + apply normalize_row_finite, pool_row_finite; eauto.
  - intros i v Hv Hfin. exists (normalize_row v).
    split; [now apply Hrow | now apply normalize_row_finite].
  - intros i v Hv Hz. exists (normalize_row v).
    split; [now apply Hrow | now apply normalize_row_zeros].
  - intros i toks mrow Htoks Hmrow Hfin Hm.
    exists (normalize_row (pool_row h toks mrow)). split.
    + apply Hrow. rewrite lookup_zip_with, Htoks, Hmrow. reflexivity.
    + apply normalize_row_zeros, pool_row_all_padding; eauto.
Qed.

Lemma divisors_clamped_no_division_by_zero_witness :
  exists pooled out,
    mean_pooling ex_hidden ex_mask = ok pooled
    /\ pool_and_normalize ex_hidden ex_mask = ok out
    /\ rows2 pooled !! 0%nat = Some [F32.of_int 2; F32.of_int 2]
    /\ exists row, rows2 out !! 0%nat = Some row
                   /\ Forall (fun x => F32.is_finite x = true) row.
Proof.
  destruct (divisors_clamped_no_division_by_zero ex_hidden ex_mask
              1%nat 3%nat 2%nat eq_refl eq_refl eq_refl eq_refl)
    as (pooled & out & Hp & Ho & _ & _ & _ & Hfin & _).
  exists pooled, out.
  assert (Hrow : rows2 pooled !! 0%nat = Some [F32.of_int 2; F32.of_int 2]).
  { vm_compute in Hp. injection Hp as <-. reflexivity. }
  repeat split; try assumption.
  apply (Hfin 0%nat _ Hrow). repeat constructor.
Defined.





(** ** The value of an unrounded product *)

Section ExactProduct.




End ExactProduct.
(** ** The handlers *)

Section Handlers.

Variable rt : Runtime.

Lemma get_embeddings_unfold (sentences : list string) (p : string) :
  get_embeddings rt sentences p
  = let prefixed := prefixed_sentences rt sentences p in
    match tokenizer rt prefixed with
    | inl e => ([Tokenize prefixed], inl e)
    | inr enc =>
        ([Tokenize prefixed; Infer (input_ids enc) (attention_mask enc)],
         rbind (model rt (input_ids enc) (attention_mask enc))
           (fun hs => pool_and_normalize hs (attention_mask enc)))
    end.
Proof.
  unfold get_embeddings, bind, call, lift, ret, pool_and_normalize. cbn zeta.
  destruct (tokenizer rt _) as [e|enc]; [reflexivity|].
  destruct (model rt _ _) as [e|hs]; [reflexivity|]. cbn [rbind].
  destruct (mean_pooling hs _) as [e|emb]; reflexivity.
Qed.

Lemma get_embeddings_tokenizer_inputs (sentences : list string) (p : string) :
  tokenizer_inputs (trace (get_embeddings rt sentences p))
  = [prefixed_sentences rt sentences p].
Proof.
  rewrite get_embeddings_unfold. cbn zeta.
  destruct (tokenizer rt _); reflexivity.
Qed.

Lemma get_embeddings_trace_head (sentences : list string) (p : string) :
  exists rest,
    trace (get_embeddings rt sentences p)
    = Tokenize (prefixed_sentences rt sentences p) :: rest.
Proof.
  rewrite get_embeddings_unfold. cbn zeta.
  destruct (tokenizer rt _); eexists; reflexivity.
Qed.

(** Without prefix mode the role label does not reach the pipeline. *)
Lemma get_embeddings_prefix_irrelevant (sentences : list string) (p q : string) :
  Cache.USE_E5_PREFIX (model_name rt) = false ->
  get_embeddings rt sentences p = get_embeddings rt sentences q.
Proof.
  intros H. rewrite !get_embeddings_unfold. unfold prefixed_sentences.
  now rewrite H.
Qed.

Lemma embed_unfold (data : embed_request) (ts : list string) :
  select_texts data = Some ts ->
  embed rt data
  = let g := get_embeddings rt ts (default "passage" (prefix data)) in
    (trace g,
     match outcome g with
     | inl e => (ErrorJson (str e), 500%nat)
     | inr E => (EmbedJson (rows2 E) (snd (shape2 E)) (length ts), 200%nat)
     end).
Proof.
  intros Hsel. unfold embed. rewrite Hsel. cbn zeta.
  generalize (get_embeddings rt ts (default "passage" (prefix data))).
  intros [tr [e|E]]; cbn; rewrite ?app_nil_r; reflexivity.
Qed.

Lemma similarity_unfold (t1 t2 : string) :
  similarity rt {| text1 := Some t1; text2 := Some t2 |}
  = let q := get_embeddings rt [t1] "query" in
    let p := get_embeddings rt [t2] "passage" in
    (trace q ++ match outcome q with inl _ => [] | inr _ => trace p end,
     match rbind (outcome q) (fun e1 =>
           rbind (outcome p) (fun e2 =>
           rbind (row0 e1) (fun u =>
           rbind (row0 e2) (fun v => dot (blas_sdot rt) u v)))) with
     | inl e => (ErrorJson (str e), 500%nat)
     | inr s => (SimilarityJson s t1 t2, 200%nat)
     end).
Proof.
  unfold similarity. cbn [text1 text2]. cbn zeta.
  generalize (get_embeddings rt [t1] "query") (get_embeddings rt [t2] "passage").
  intros [tr1 [e1|E1]] [tr2 [e2|E2]]; cbn; rewrite ?app_nil_r; try reflexivity.
  all: destruct (row0 E1) as [e|u]; cbn; rewrite ?app_nil_r; try reflexivity.
  all: destruct (row0 E2) as [e|v]; cbn; rewrite ?app_nil_r; try reflexivity.
  all: destruct (dot (blas_sdot rt) u v) as [e|s]; cbn; now rewrite ?app_nil_r.
Qed.

End Handlers.

Lemma zip_exact_mul_comm (u v : list f32) :
  zip_with F32.exact_mul u v = zip_with F32.exact_mul v u.
Proof.
  revert v. induction u as [|x u IH]; intros [|y v]; cbn; try reflexivity.
  now rewrite IH, exact_mul_comm.
Qed.

Lemma dot_comm (sdot : list f32 -> f32) (u v : list f32) :
  to_option (dot sdot u v) = to_option (dot sdot v u).
Proof.
  unfold dot. rewrite (Nat.eqb_sym (length v) (length u)).
  destruct (Nat.eqb (length u) (length v)); [|reflexivity].
  now rewrite zip_exact_mul_comm.
Qed.

Lemma dot_status_comm (sdot : list f32 -> f32) (u v : list f32) :
  (exists s, dot sdot u v = ok s) <-> (exists s, dot sdot v u = ok s).
Proof.
  unfold dot. rewrite (Nat.eqb_sym (length v) (length u)).
  destruct (Nat.eqb (length u) (length v)); [split; eauto|].
  split; intros [s H]; discriminate H.
Qed.

(** C2 (as stated, refuted): an empty [texts] list is not rejected with a
    400; it reaches the tokenizer, and the tokenizer's failure comes back as
    a 500. *)
Lemma embed_empty_texts_reaches_tokenizer :
  embed Toy.e5_runtime (empty_batch_request None)
  = ([Tokenize []], (ErrorJson "list index out of range", 500%nat))
  /\ forall (rt : Runtime) (p : option string),
       status (embed rt (empty_batch_request p)) <> 400%nat.
Proof.
  split; [reflexivity|]. intros rt p.
  rewrite (embed_unfold rt (empty_batch_request p) [] eq_refl). cbn zeta.
  unfold status. cbn [snd]. destruct (outcome _); cbn; discriminate.
Qed.

(** C2 (amended): [embed] has no validation for an empty [texts] list. The
    empty batch is handed to the tokenizer; the answer is never a 400: it is
    a 500 carrying the error string when the pipeline raises, and a 200 with
    count 0 when it returns. *)
Theorem embed_empty_texts_not_validated (rt : Runtime) (p : option string) :
  let r := embed rt (empty_batch_request p) in
  (exists rest, fst r = Tokenize [] :: rest)
  /\ tokenizer_inputs (fst r) = [[]]
  /\ status r <> 400%nat
  /\ snd r
     = match outcome (get_embeddings rt [] (default "passage" p)) with
       | inl e => (ErrorJson (str e), 500%nat)
       | inr E => (EmbedJson (rows2 E) (snd (shape2 E)) 0, 200%nat)
       end.
Proof.
  cbn zeta. rewrite (embed_unfold rt (empty_batch_request p) [] eq_refl).
  cbn zeta. cbn [fst snd prefix empty_batch_request length].
  assert (Hpre : prefixed_sentences rt [] (default "passage" p) = []).
  { unfold prefixed_sentences. now destruct (Cache.USE_E5_PREFIX _). }
  repeat split.
  - destruct (get_embeddings_trace_head rt [] (default "passage" p)) as [rest Hr].
    exists rest. now rewrite Hr, Hpre.
  - now rewrite get_embeddings_tokenizer_inputs, Hpre.
  - unfold status. cbn [snd].
    destruct (outcome _); cbn; discriminate.
Qed.



(** C4: [get_embeddings] calls the tokenizer exactly once; in prefix mode the
    batch it passes is every input text with ["{prefix}: "] prepended, and
    otherwise it is the input list unchanged. *)
Theorem prefix_prepended_in_prefix_mode (rt : Runtime)
    (sentences : list string) (p : string) :
  tokenizer_inputs (trace (get_embeddings rt sentences p))
  = [if Cache.USE_E5_PREFIX (model_name rt)
     then map (fun s => p +:+ ": " +:+ s) sentences
     else sentences].
Proof.
  rewrite get_embeddings_tokenizer_inputs. unfold prefixed_sentences.
  destruct (Cache.USE_E5_PREFIX _); reflexivity.
Qed.

(** C7: [POST /embed] answers 400 with an error message when the body has
    neither 'text' nor 'texts'; otherwise it answers 200 with the embeddings,
    their dimension and the number of texts when the pipeline returns, and 500
    with the error string when the pipeline raises. *)
Theorem embed_status_codes (rt : Runtime) (data : embed_request) :
  (text data = None -> texts data = None ->
   embed rt data
   = ([], (ErrorJson "Missing 'text' or 'texts' in request body", 400%nat)))
  /\ (forall ts E,
        select_texts data = Some ts ->
        outcome (get_embeddings rt ts (default "passage" (prefix data))) = ok E ->
        snd (embed rt data)
        = (EmbedJson (rows2 E) (snd (shape2 E)) (length ts), 200%nat))
  /\ (forall ts e,
        select_texts data = Some ts ->
        outcome (get_embeddings rt ts (default "passage" (prefix data)))
        = raise e ->
        snd (embed rt data) = (ErrorJson (str e), 500%nat))
  /\ (status (embed rt data) = 400%nat <-> text data = None /\ texts data = None).
Proof.
  split; [|split; [|split; [|split]]].
  - intros Ht Hts. unfold embed, select_texts. now rewrite Ht, Hts.
  - intros ts E Hsel HE. rewrite (embed_unfold rt data ts Hsel). cbn zeta.
    cbn [snd]. now rewrite HE.
  - intros ts e Hsel He. rewrite (embed_unfold rt data ts Hsel). cbn zeta.
    cbn [snd]. now rewrite He.
  - destruct (select_texts data) as [ts|] eqn:Hsel.
    + intros Hst. exfalso. revert Hst. rewrite (embed_unfold rt data ts Hsel).
      cbn zeta. unfold status. cbn [snd]. destruct (outcome _); cbn; discriminate.
    + unfold select_texts in Hsel. destruct (text data); [discriminate|].
      intros _. split; [reflexivity | exact Hsel].
  - intros [Ht Hts]. unfold embed, select_texts. now rewrite Ht, Hts.
Qed.

Lemma embed_status_codes_witness :
  embed Toy.e5_runtime {| text := None; texts := None; prefix := None |}
  = ([], (ErrorJson "Missing 'text' or 'texts' in request body", 400%nat)).
Proof.
  apply (embed_status_codes Toy.e5_runtime
           {| text := None; texts := None; prefix := None |}); reflexivity.
Defined.

(** C8: without prefix mode [similarity] is symmetric, for every runtime and
    every pair of texts (same status, same score); with prefix mode there are
    a runtime and two texts whose score changes when they are swapped. *)
Theorem similarity_symmetric_iff_no_prefix :
  (forall (rt : Runtime) (a b : string),
      Cache.USE_E5_PREFIX (model_name rt) = false ->
      score (similarity rt (sim_request a b))
      = score (similarity rt (sim_request b a))
      /\ status (similarity rt (sim_request a b))
         = status (similarity rt (sim_request b a)))
  /\ (exists (rt : Runtime) (a b : string),
         Cache.USE_E5_PREFIX (model_name rt) = true
         /\ is_Some (score (similarity rt (sim_request a b)))
         /\ score (similarity rt (sim_request a b))
            <> score (similarity rt (sim_request b a))).
Proof.
  split.
  - intros rt a b Hoff. unfold sim_request. rewrite !similarity_unfold.
    cbn zeta. unfold score, status, body. cbn [fst snd].
    rewrite (get_embeddings_prefix_irrelevant rt [a] "query" "passage" Hoff).
    rewrite (get_embeddings_prefix_irrelevant rt [b] "query" "passage" Hoff).
    destruct (outcome (get_embeddings rt [a] "passage")) as [ea|Ea];
      destruct (outcome (get_embeddings rt [b] "passage")) as [eb|Eb];
      cbn [rbind]; try (split; reflexivity).
    destruct (row0 Ea) as [e|u]; destruct (row0 Eb) as [e'|v]; cbn [rbind];
      try (split; reflexivity).
    pose proof (dot_comm (blas_sdot rt) u v) as Hd.
    destruct (dot (blas_sdot rt) u v) as [e1|s1];
      destruct (dot (blas_sdot rt) v u) as [e2|s2]; cbn in Hd |- *;
      try discriminate Hd; split; congruence.
  - exists Toy.e5_runtime, "a"%string, "b"%string.
    split; [reflexivity|]. split.
    + vm_compute. eauto.
    + vm_compute. discriminate.
Qed.

Lemma similarity_symmetric_iff_no_prefix_witness :
  score (similarity Toy.plain_runtime (sim_request "a" "b"))
  = score (similarity Toy.plain_runtime (sim_request "b" "a"))
  /\ status (similarity Toy.plain_runtime (sim_request "a" "b"))
     = status (similarity Toy.plain_runtime (sim_request "b" "a")).
Proof.
  apply (proj1 similarity_symmetric_iff_no_prefix Toy.plain_runtime).
  reflexivity.
Defined.


(** ** The ONNX cache *)

Lemma replace_slash_free (name : string) :
  contains "/" (replace "/" "_" name) = false.
Proof.
  induction name as [|c name IH]; [reflexivity|].
  cbn [replace contains]. rewrite IH, orb_false_r.
  destruct (Ascii.eqb_spec c "/") as [->|Hne]; [reflexivity|].
  cbn [String.prefix]. destruct (ascii_dec "/" c) as [<-|_]; [|reflexivity].
  now contradiction Hne.
Qed.

Lemma length_replace (old new : Ascii.ascii) (name : string) :
  String.length (replace old new name) = String.length name.
Proof. induction name as [|c name IH]; cbn; [reflexivity | now rewrite IH]. Qed.

Section CacheRuns.

Context {Model : Type}.

(** With a model stored at the cache path nothing outside is consulted. *)
Lemma ensure_artifact_fast (out : Cache.outside Model) (name : string)
    (fs : gmap string (option Model)) (m0 : Model) :
  fs !! Cache.onnx_path name = Some (Some m0) ->
  Cache.ensure_artifact out name fs
  = ([Cache.LoadCached (Cache.onnx_path name)],
     ok (Cache.onnx_path name, m0, fs)).
Proof.
  intros Hm0. unfold Cache.ensure_artifact, Cache.from_pretrained_local.
  rewrite Hm0. rewrite decide_True by eauto. reflexivity.
Qed.

Lemma save_pretrained_lookup (out : Cache.outside Model) (m : Model)
    (p : string) (fs : gmap string (option Model)) :
  Cache.save_pretrained out m p fs !! p = Some (Some m).
Proof. unfold Cache.save_pretrained. apply lookup_insert_eq. Qed.

(** How a start-up that succeeded went. *)
Lemma ensure_artifact_ok_inv (out : Cache.outside Model) (name : string)
    (fs fs' : gmap string (option Model)) (evs : list Cache.io_event)
    (p : string) (m : Model) :
  Cache.ensure_artifact out name fs = (evs, ok (p, m, fs')) ->
  p = Cache.onnx_path name
  /\ fs' !! p = Some (Some m)
  /\ ((fs !! p = Some (Some m) /\ evs = [Cache.LoadCached p] /\ fs' = fs)
      \/ (fs !! p = None /\ Cache.export out name = ok m
          /\ evs = [Cache.Convert name; Cache.MakeDirs p; Cache.SavePretrained p]
          /\ fs' = Cache.save_pretrained out m p (Cache.makedirs p fs))).
Proof.
  unfold Cache.ensure_artifact, Cache.from_pretrained_local. intros Hrun.
  destruct (decide (is_Some (fs !! Cache.onnx_path name))) as [Hex|Hnone].
  - destruct (fs !! Cache.onnx_path name) as [[m0|]|] eqn:Hlk;
      cbn in Hrun; try discriminate.
    injection Hrun as <- <- <- <-. auto 6.
  - destruct (Cache.export out name) as [e|m0] eqn:Hexp; [discriminate|].
    destruct (Cache.makedirs_error out _ fs); [discriminate|].
    destruct (Cache.save_error out m0 _ _); [discriminate|].
    injection Hrun as <- <- <- <-.
    split; [reflexivity|]. split; [apply save_pretrained_lookup|]. right.
    split; [|auto]. destruct (fs !! Cache.onnx_path name) eqn:Hlk;
      [exfalso; apply Hnone; eauto | reflexivity].
Qed.

End CacheRuns.

(** C5: the cache path depends on the model identifier alone and has no '/'
    after the cache root; when a model is stored at that path start-up loads
    it and converts nothing; and after a start-up that succeeded, a second one
    for the same identifier returns the same path and model without
    consulting the exporter, whatever lies outside by then, and leaves the
    disk as it is. *)
Theorem ensure_artifact_idempotent {Model : Type}
    (out : Cache.outside Model) (name : string)
    (fs : gmap string (option Model)) :
  (exists seg, Cache.onnx_path name = "/app/cache/onnx/" +:+ seg
               /\ contains "/" seg = false
               /\ String.length seg = String.length name)
  /\ (forall m0, fs !! Cache.onnx_path name = Some (Some m0) ->
        Cache.ensure_artifact out name fs
        = ([Cache.LoadCached (Cache.onnx_path name)],
           ok (Cache.onnx_path name, m0, fs)))
  /\ (forall evs p m fs',
        Cache.ensure_artifact out name fs = (evs, ok (p, m, fs')) ->
        p = Cache.onnx_path name
        /\ (forall out',
              Cache.ensure_artifact out' name fs'
              = ([Cache.LoadCached p], ok (p, m, fs')))
        /\ Cache.converted [Cache.LoadCached p] = false).
Proof.
  split; [|split].
  - exists (replace "/" "_" name). split; [reflexivity|].
    split; [apply replace_slash_free | apply length_replace].
  - intros m0 Hm0. now apply ensure_artifact_fast.
  - intros evs p m fs' Hrun.
    destruct (ensure_artifact_ok_inv _ _ _ _ _ _ _ Hrun) as (-> & Hlk & _).
    split; [reflexivity|]. split; [|reflexivity].
    intros out'. now apply ensure_artifact_fast.
Qed.

Lemma ensure_artifact_idempotent_witness :
  Cache.onnx_path Cache.DEFAULT_MODEL = "/app/cache/onnx/intfloat_e5-small-v2"
  /\ exists fs',
      fs' !! "/app/cache/onnx/" = Some None
      /\ fs' !! "/app/cache/onnx/intfloat_e5-small-v2/model.onnx" = Some None
      /\ forall out',
          Cache.ensure_artifact out' Cache.DEFAULT_MODEL fs'
          = ([Cache.LoadCached (Cache.onnx_path Cache.DEFAULT_MODEL)],
             ok (Cache.onnx_path Cache.DEFAULT_MODEL, 7%nat, fs')).
Proof.
  split; [reflexivity|].
  exists (Cache.save_pretrained (toy_outside 7) 7%nat
            (Cache.onnx_path Cache.DEFAULT_MODEL)
            (Cache.makedirs (Cache.onnx_path Cache.DEFAULT_MODEL) ∅)).
  split; [vm_compute; reflexivity|]. split; [vm_compute; reflexivity|].
  apply (proj2 (proj2 (ensure_artifact_idempotent (toy_outside 7)
                         Cache.DEFAULT_MODEL ∅))
           [Cache.Convert Cache.DEFAULT_MODEL;
            Cache.MakeDirs (Cache.onnx_path Cache.DEFAULT_MODEL);
            Cache.SavePretrained (Cache.onnx_path Cache.DEFAULT_MODEL)]).
  unfold Cache.ensure_artifact.
  rewrite decide_False by (rewrite lookup_empty; apply is_Some_None).
  reflexivity.
Defined.

(** * Further properties of the code *)

(** ** Shapes, batching and padding *)

Section Batching.

Lemma wf_single3 (s h : nat) (toks : list (list f32)) :
  length toks = s -> Forall (fun v => length v = h) toks ->
  wf3 (single3 s h toks) = true.
Proof.
  intros Hs Hh. unfold wf3, single3. cbn [shape3 rows3 length forallb].
  rewrite Nat.eqb_refl. cbn [andb]. rewrite andb_true_r.
  apply andb_true_intro. split; [now apply Nat.eqb_eq | now apply wf_rows_Forall].
Qed.

Lemma wf_single2 (s : nat) (mrow : list Z) :
  length mrow = s -> wf2 (single2 s mrow) = true.
Proof.
  intros Hs. unfold wf2, single2, wf_rows. cbn [shape2 rows2 length forallb].
  rewrite Nat.eqb_refl. cbn [andb]. rewrite andb_true_r. now apply Nat.eqb_eq.
Qed.

Lemma pool_and_normalize_single (s h : nat) (toks : list (list f32))
    (mrow : list Z) :
  length toks = s -> Forall (fun v => length v = h) toks -> length mrow = s ->
  pool_and_normalize (single3 s h toks) (single2 s mrow)
  = ok (Arr2 (1%nat, h) [normalize_row (pool_row h toks mrow)]).
Proof.
  intros Hs Hh Hm.
  apply (pool_and_normalize_rows (single3 s h toks) (single2 s mrow) 1 s h);
    auto using wf_single3, wf_single2.
Qed.

End Batching.

(** X1: on arrays of matching shapes [(B,S,H)] and [(B,S)] the pipeline
    returns an array of shape [(B,H)] whose items agree with that shape: one
    row per batch row, each as long as the hidden dimension. *)
Theorem pool_and_normalize_shape (hidden : ndarray3 f32) (mask : ndarray2 Z)
    (b s h : nat) :
  wf3 hidden = true -> wf2 mask = true ->
  shape3 hidden = (b, s, h) -> shape2 mask = (b, s) ->
  exists out,
    pool_and_normalize hidden mask = ok out
    /\ shape2 out = (b, h)
    /\ wf2 out = true
    /\ length (rows2 out) = b
    /\ Forall (fun row => length row = h) (rows2 out).
Proof.
  intros Hwf3 Hwf2 Hs3 Hs2.
  destruct (wf3_inv _ _ _ _ Hwf3 Hs3) as [Hb Hrows].
  destruct (wf2_inv _ _ _ Hwf2 Hs2) as [Hb' _].
  eexists. split; [apply (pool_and_normalize_rows _ _ _ _ _ Hwf3 Hwf2 Hs3 Hs2)|].
  cbn [shape2 rows2].
  assert (Hlen : length (zip_with (fun toks mrow =>
                   normalize_row (pool_row h toks mrow))
                   (rows3 hidden) (rows2 mask)) = b).
  { rewrite length_zip_with. lia. }
  assert (Hall : Forall (fun row => length row = h)
                   (zip_with (fun toks mrow =>
                      normalize_row (pool_row h toks mrow))
                      (rows3 hidden) (rows2 mask))).
  { clear Hb Hb' Hlen. generalize (rows2 mask).
    induction Hrows as [|toks hrows [_ Htoks] _ IH]; intros [|mrow mrows];
      cbn [zip_with]; constructor; [|apply IH].
    now rewrite length_normalize_row, length_pool_row. }
  split; [reflexivity|]. split; [|split; assumption].
  unfold wf2. cbn [shape2 rows2]. rewrite Hlen, Nat.eqb_refl. cbn [andb].
  now apply wf_rows_Forall.
Qed.

Lemma pool_and_normalize_shape_witness :
  exists out,
    pool_and_normalize padded_hidden padded_mask = ok out
    /\ shape2 out = (2, 2)%nat
    /\ wf2 out = true
    /\ length (rows2 out) = 2%nat
    /\ Forall (fun row => length row = 2%nat) (rows2 out).
Proof.
  apply (pool_and_normalize_shape padded_hidden padded_mask 2 2 2); reflexivity.
Defined.

(** X2: batching does not change a row: row [i] of the result for a batch is
    the result the pipeline gives for the one-row batch made of row [i] of the
    hidden states and row [i] of the mask. *)
Theorem batch_row_independent (hidden : ndarray3 f32) (mask : ndarray2 Z)
    (b s h i : nat) (toks : list (list f32)) (mrow : list Z) :
  wf3 hidden = true -> wf2 mask = true ->
  shape3 hidden = (b, s, h) -> shape2 mask = (b, s) ->
  rows3 hidden !! i = Some toks -> rows2 mask !! i = Some mrow ->
  exists out row,
    pool_and_normalize hidden mask = ok out
    /\ rows2 out !! i = Some row
    /\ pool_and_normalize (single3 s h toks) (single2 s mrow)
       = ok (Arr2 (1%nat, h) [row]).
Proof.
  intros Hwf3 Hwf2 Hs3 Hs2 Htoks Hmrow.
  destruct (wf3_inv _ _ _ _ Hwf3 Hs3) as [_ Hrows].
  destruct (wf2_inv _ _ _ Hwf2 Hs2) as [_ Hmrows].
  eapply Forall_lookup_1 in Hrows as [Hlen Hh]; [|exact Htoks].
  eapply Forall_lookup_1 in Hmrows; [|exact Hmrow]. cbn beta in Hmrows.
  eexists _, (normalize_row (pool_row h toks mrow)). split; [|split].
  - apply (pool_and_normalize_rows _ _ _ _ _ Hwf3 Hwf2 Hs3 Hs2).
  - cbn [rows2]. now rewrite lookup_zip_with, Htoks, Hmrow.
  - now apply pool_and_normalize_single.
Qed.

Lemma batch_row_independent_witness :
  exists out row,
    pool_and_normalize padded_hidden padded_mask = ok out
    /\ rows2 out !! 0%nat = Some row
    /\ pool_and_normalize
         (single3 2 2 [[F32.of_int 1; F32.of_int 2]; [F32.of_int 3; F32.of_int 4]])
         (single2 2 [1; 1])
       = ok (Arr2 (1, 2)%nat [row]).
Proof.
  apply (batch_row_independent padded_hidden padded_mask 2 2 2 0); reflexivity.
Defined.

Section PaddingTokens.

Lemma same_value_refl (x : f32) : same_value x x.
Proof. now left. Qed.

Lemma same_value_trans (x y z : f32) :
  same_value x y -> same_value y z -> same_value x z.
Proof.
  intros [Hxy|[Hx Hy]] [Hyz|[Hy' Hz]]; subst;
    first [left; reflexivity | right; split; assumption].
Qed.

Lemma add_zero_same (x x' z : f32) :
  F32.is_zero z = true -> same_value x x' -> same_value (F32.add x z) x'.
Proof.
  intros Hz [<-|[Hx Hx']].
  - destruct z as [sz| | |]; try discriminate.
    destruct x as [[]|[]| |]; destruct sz; cbn; auto using same_value_refl;
      right; split; reflexivity.
  - right. split; [now apply add_zero_zero | exact Hx'].
Qed.

Lemma div_same (x x' d : f32) :
  same_value x x' -> same_value (F32.div x d) (F32.div x' d).
Proof.
  intros [<-|[Hx Hx']]; [apply same_value_refl|].
  destruct x as [sx| | |]; try discriminate.
  destruct x' as [sx'| | |]; try discriminate.
  destruct d as [sd|sd| |sd md ed]; cbn; try (left; reflexivity);
    right; split; reflexivity.
Qed.

Lemma mul_self_same (x x' : f32) :
  same_value x x' -> F32.mul x x = F32.mul x' x'.
Proof.
  intros [<-|[Hx Hx']]; [reflexivity|].
  now rewrite (mul_self_zero x Hx), (mul_self_zero x' Hx').
Qed.

Lemma clamp_same (x x' : f32) :
  same_value x x' -> clamp_eps x = clamp_eps x'.
Proof.
  intros [<-|[Hx Hx']]; [reflexivity|]. unfold clamp_eps.
  now rewrite (maximum_zero_eps x Hx), (maximum_zero_eps x' Hx').
Qed.

Lemma Forall2_same_refl (v : list f32) : Forall2 same_value v v.
Proof. induction v; constructor; auto using same_value_refl. Qed.

Lemma Forall2_same_trans (u v w : list f32) :
  Forall2 same_value u v -> Forall2 same_value v w -> Forall2 same_value u w.
Proof.
  intros Huv. revert w. induction Huv as [|x y u v Hxy _ IH]; intros w Hvw.
  - inversion Hvw. constructor.
  - inversion Hvw as [|? z ? w' Hyz Hrest]; subst. constructor.
    + eapply same_value_trans; eauto.
    + now apply IH.
Qed.

Lemma zip_add_zeros_same (acc z : list f32) :
  length z = length acc -> is_zero_vector z ->
  Forall2 same_value (zip_with F32.add acc z) acc.
Proof.
  revert z. induction acc as [|a acc IH]; intros [|x z] Hlen Hz;
    cbn in *; try discriminate; constructor.
  - inversion Hz; subst. apply add_zero_same; auto using same_value_refl.
  - inversion Hz; subst. apply IH; [lia | assumption].
Qed.

Lemma map_clamp_same (u v : list f32) :
  Forall2 same_value u v -> map clamp_eps u = map clamp_eps v.
Proof.
  induction 1 as [|x y u v Hxy _ IH]; cbn; [reflexivity|].
  now rewrite IH, (clamp_same x y Hxy).
Qed.

Lemma zip_div_same (u v d : list f32) :
  Forall2 same_value u v ->
  Forall2 same_value (zip_with F32.div u d) (zip_with F32.div v d).
Proof.
  intros H. revert d. induction H as [|x y u v Hxy _ IH]; intros [|c d];
    cbn; constructor; auto using div_same.
Qed.

Lemma norm_row_same (u v : list f32) :
  Forall2 same_value u v -> norm_row u = norm_row v.
Proof.
  intros H. unfold norm_row. do 2 f_equal.
  induction H as [|x y u v Hxy _ IH]; cbn [map]; [reflexivity|].
  now rewrite IH, (mul_self_same x y Hxy).
Qed.

Lemma normalize_row_same (u v : list f32) :
  Forall2 same_value u v ->
  Forall2 same_value (normalize_row u) (normalize_row v).
Proof.
  intros H. unfold normalize_row. rewrite (norm_row_same u v H).
  generalize (clamp_eps (norm_row v)). intros d.
  induction H as [|x y u v Hxy _ IH]; cbn; constructor; auto using div_same.
Qed.

Lemma masked_pad_zero (h : nat) (tok : list f32) :
  Forall (fun x => F32.is_finite x = true) tok ->
  is_zero_vector (zip_with F32.mul tok (replicate h (F32.of_int 0))).
Proof.
  intros H. revert h. induction H as [|x tok Hx _ IH]; intros [|h];
    cbn [replicate zip_with]; try constructor.
  - rewrite of_int_0. now apply mul_zero_r.
  - apply IH.
Qed.

Lemma replicate_zero_vector (h : nat) :
  is_zero_vector (replicate h (F32.of_int 0)).
Proof. induction h; cbn; constructor; auto. Qed.

Lemma mask_row_expanded_snoc (h : nat) (mrow : list Z) (m : Z) :
  mask_row_expanded h (mrow ++ [m])
  = mask_row_expanded h mrow ++ [replicate h (F32.of_int m)].
Proof. unfold mask_row_expanded. now rewrite map_app. Qed.

Lemma sum_tokens_snoc (h : nat) (vs : list (list f32)) (v : list f32) :
  h <> 1%nat ->
  sum_tokens h (vs ++ [v]) = zip_with F32.add (sum_tokens h vs) v.
Proof.
  intros Hh. unfold sum_tokens.
  destruct (Nat.eqb_spec h 1) as [->|_]; [contradiction|].
  now rewrite foldl_app.
Qed.

(** One more masked-out token at the end of a row. *)
Lemma pool_row_pad_one (h : nat) (toks : list (list f32)) (mrow : list Z)
    (tok : list f32) :
  h <> 1%nat ->
  Forall (fun v => length v = h) toks -> length toks = length mrow ->
  length tok = h -> Forall (fun x => F32.is_finite x = true) tok ->
  Forall2 same_value (pool_row h (toks ++ [tok]) (mrow ++ [0]))
    (pool_row h toks mrow).
Proof.
  intros Hh Hwf Hlen Htok Hfin. unfold pool_row.
  rewrite mask_row_expanded_snoc.
  rewrite zip_with_app by now rewrite length_mask_row_expanded.
  cbn [zip_with]. rewrite !sum_tokens_snoc by exact Hh.
  assert (Hmask : Forall2 same_value
            (zip_with F32.add (sum_tokens h (mask_row_expanded h mrow))
               (replicate h (F32.of_int 0)))
            (sum_tokens h (mask_row_expanded h mrow))).
  { apply zip_add_zeros_same; [|apply replicate_zero_vector].
    rewrite length_replicate, length_sum_tokens; auto using mask_row_expanded_wf. }
  rewrite (map_clamp_same _ _ Hmask).
  apply zip_div_same, zip_add_zeros_same; [|now apply masked_pad_zero].
  rewrite length_zip_with, length_replicate, length_sum_tokens
    by auto using masked_tokens_wf. lia.
Qed.

Lemma pool_row_pad (h : nat) (toks : list (list f32)) (mrow : list Z)
    (pads : list (list f32)) :
  h <> 1%nat ->
  Forall (fun v => length v = h) toks -> length toks = length mrow ->
  Forall (fun v => length v = h) pads ->
  Forall (Forall (fun x => F32.is_finite x = true)) pads ->
  Forall2 same_value
    (pool_row h (toks ++ pads) (mrow ++ replicate (length pads) 0))
    (pool_row h toks mrow).
Proof.
  intros Hh Hwf Hlen. induction pads as [|tok pads IH] using rev_ind;
    intros Hpw Hpf.
  - cbn [length replicate]. rewrite !app_nil_r. apply Forall2_same_refl.
  - apply Forall_app in Hpw as [Hpw Htok]. apply Forall_app in Hpf as [Hpf Hfin].
    inversion Htok; subst. inversion Hfin; subst.
    rewrite length_app. cbn [length]. rewrite replicate_add. cbn [replicate].
    rewrite !app_assoc.
    eapply Forall2_same_trans; [|apply IH; assumption].
    apply pool_row_pad_one; auto.
    + apply Forall_app. split; assumption.
    + rewrite !length_app, length_replicate. lia.
Qed.

End PaddingTokens.

(** X3: with more than one hidden component (or none), padding a text
    further does not change its embedding. Appending tokens with finite
    hidden states and mask 0 to a row gives, component by component, the same
    float as before, or a zero where there was a zero of the other sign. With
    a single hidden component the sequence axis is summed in pairs and the
    grouping moves with the padding. *)
Theorem padding_tokens_ignored (s h : nat) (toks : list (list f32))
    (mrow : list Z) (pads : list (list f32)) :
  h <> 1%nat ->
  length toks = s -> Forall (fun v => length v = h) toks -> length mrow = s ->
  Forall (fun v => length v = h) pads ->
  Forall (Forall (fun x => F32.is_finite x = true)) pads ->
  exists row row',
    pool_and_normalize (single3 s h toks) (single2 s mrow)
    = ok (Arr2 (1%nat, h) [row])
    /\ pool_and_normalize
         (single3 (s + length pads) h (toks ++ pads))
         (single2 (s + length pads) (mrow ++ replicate (length pads) 0))
       = ok (Arr2 (1%nat, h) [row'])
    /\ Forall2 same_value row' row.
Proof.
  intros Hh Hs Hwf Hm Hpw Hpf.
  eexists _, _. split; [|split].
  - now apply pool_and_normalize_single.
  - apply pool_and_normalize_single.
    + rewrite length_app. lia.
    + apply Forall_app. split; assumption.
    + rewrite length_app, length_replicate. lia.
  - apply normalize_row_same, pool_row_pad; auto. lia.
Qed.

Lemma padding_tokens_ignored_witness :
  exists row row',
    pool_and_normalize
      (single3 2 2 [[F32.of_int 1; F32.of_int 2]; [F32.of_int 3; F32.of_int 4]])
      (single2 2 [1; 1])
    = ok (Arr2 (1, 2)%nat [row])
    /\ pool_and_normalize
         (single3 3 2 [[F32.of_int 1; F32.of_int 2]; [F32.of_int 3; F32.of_int 4];
                       [F32.of_int 9; F32.of_int (-9)]])
         (single2 3 [1; 1; 0])
       = ok (Arr2 (1, 2)%nat [row'])
    /\ Forall2 same_value row' row.
Proof.
  apply (padding_tokens_ignored 2 2
           [[F32.of_int 1; F32.of_int 2]; [F32.of_int 3; F32.of_int 4]]
           [1; 1] [[F32.of_int 9; F32.of_int (-9)]]);
    try reflexivity; try (repeat constructor); try discriminate.
Defined.

(** X4: [mean_pooling] raises a [ValueError] exactly when the mask's batch or
    sequence length neither equals the hidden states' nor is 1; otherwise it
    returns an array of shape [(B,H)]. *)
Theorem mean_pooling_shape_mismatch (hidden : ndarray3 f32) (mask : ndarray2 Z)
    (b s h bm sm : nat) :
  shape3 hidden = (b, s, h) -> shape2 mask = (bm, sm) ->
  (broadcastable bm b && broadcastable sm s = false ->
   exists e, mean_pooling hidden mask = raise e /\ exn_type e = "ValueError")
  /\ (broadcastable bm b && broadcastable sm s = true ->
      exists out, mean_pooling hidden mask = ok out /\ shape2 out = (b, h)).
Proof.
  intros Hs3 Hs2.
  unfold mean_pooling, broadcast_to, astype_float32, expand_dims_last.
  rewrite Hs2, Hs3. cbn [shape3 rows3].
  assert (H1 : broadcastable 1 h = true) by (unfold broadcastable; apply orb_true_r).
  rewrite H1, andb_true_r. split; intros ->; cbn [rbind raise ok].
  - eexists. split; reflexivity.
  - eexists. split; [reflexivity|].
    unfold divide, sum_axis1, multiply. cbn [shape3 shape2]. now rewrite Hs3.
Qed.

Lemma mean_pooling_shape_mismatch_witness :
  exists e, mean_pooling ex_hidden long_mask = raise e
            /\ exn_type e = "ValueError".
Proof.
  apply (mean_pooling_shape_mismatch ex_hidden long_mask 1 3 2 2 3);
    reflexivity.
Defined.

(** X5: the model is called only after the tokenizer returned, once, and with
    the very ids and mask the tokenizer produced; when the tokenizer raises,
    the model is never called and [POST /embed] answers 500 with the
    tokenizer's message. *)
Theorem model_called_after_tokenizer (rt : Runtime) (data : embed_request)
    (ts : list string) :
  select_texts data = Some ts ->
  let batch := prefixed_sentences rt ts (default "passage" (prefix data)) in
  model_inputs (fst (embed rt data))
  = match tokenizer rt batch with
    | inl _ => []
    | inr enc => [(input_ids enc, attention_mask enc)]
    end
  /\ (forall e, tokenizer rt batch = raise e ->
        embed rt data = ([Tokenize batch], (ErrorJson (str e), 500%nat))).
Proof.
  intros Hsel. cbn zeta. rewrite (embed_unfold rt data ts Hsel). cbn zeta.
  rewrite get_embeddings_unfold. cbn zeta. split.
  - destruct (tokenizer rt _); reflexivity.
  - intros e He. rewrite He. reflexivity.
Qed.

Lemma model_called_after_tokenizer_witness :
  model_inputs (fst (embed broken_runtime (text_request "a" "query"))) = []
  /\ embed broken_runtime (text_request "a" "query")
     = ([Tokenize ["a"]], (ErrorJson "tokenizer failed", 500%nat)).
Proof.
  destruct (model_called_after_tokenizer broken_runtime
              (text_request "a" "query") ["a"] eq_refl) as [Hm He].
  split; [exact Hm|].
  exact (He (Exception "RuntimeError" "tokenizer failed") eq_refl).
Defined.

(** X6: when tokenizer and model return arrays of matching shapes [(B,S)] and
    [(B,S,H)], [POST /embed] answers 200, the dimension it reports is [H], it
    returns [B] vectors and every one of them has exactly [H] components. *)
Theorem embed_dimension_consistent (rt : Runtime) (data : embed_request)
    (ts : list string) (enc : Encoding) (hs : ndarray3 f32) (b s h : nat) :
  select_texts data = Some ts ->
  tokenizer rt (prefixed_sentences rt ts (default "passage" (prefix data)))
  = ok enc ->
  model rt (input_ids enc) (attention_mask enc) = ok hs ->
  wf3 hs = true -> wf2 (attention_mask enc) = true ->
  shape3 hs = (b, s, h) -> shape2 (attention_mask enc) = (b, s) ->
  exists rows,
    snd (embed rt data) = (EmbedJson rows h (length ts), 200%nat)
    /\ length rows = b
    /\ Forall (fun row => length row = h) rows.
Proof.
  intros Hsel Htok Hmodel Hwf3 Hwf2 Hs3 Hs2.
  destruct (pool_and_normalize_shape hs (attention_mask enc) b s h
              Hwf3 Hwf2 Hs3 Hs2) as (out & Hout & Hshape & _ & Hlen & Hrows).
  exists (rows2 out). rewrite (embed_unfold rt data ts Hsel). cbn zeta.
  rewrite get_embeddings_unfold. cbn zeta. rewrite Htok. unfold ok.
  cbn [outcome snd]. rewrite Hmodel. unfold ok. cbn [rbind].
  rewrite Hout. unfold ok. rewrite Hshape. cbn [snd].
  split; [reflexivity | split; assumption].
Qed.

Lemma embed_dimension_consistent_witness :
  exists rows,
    snd (embed Toy.plain_runtime (text_request "ab" "query"))
    = (EmbedJson rows 3 1, 200%nat)
    /\ length rows = 1%nat
    /\ Forall (fun row => length row = 3%nat) rows.
Proof.
  eapply (embed_dimension_consistent Toy.plain_runtime
            (text_request "ab" "query") ["ab"] _ _ 1 4 3); reflexivity.
Defined.

(** X7: without prefix mode the 'prefix' field of [POST /embed] has no effect
    on the answer or on what the tokenizer receives; in every mode, leaving
    'prefix' out is the same as sending "passage". *)
Theorem prefix_field_ignored_without_prefix_mode (rt : Runtime)
    (t : option string) (ts : option (list string)) (p p' : option string) :
  (Cache.USE_E5_PREFIX (model_name rt) = false ->
   embed rt {| text := t; texts := ts; prefix := p |}
   = embed rt {| text := t; texts := ts; prefix := p' |})
  /\ embed rt {| text := t; texts := ts; prefix := None |}
     = embed rt {| text := t; texts := ts; prefix := Some "passage" |}.
Proof.
  split; [|reflexivity]. intros Hoff.
  unfold embed, select_texts. cbn [text texts prefix].
  destruct t as [t|]; [|destruct ts as [ts|]; [|reflexivity]].
  - now rewrite (get_embeddings_prefix_irrelevant rt [t] (default "passage" p)
                   (default "passage" p') Hoff).
  - now rewrite (get_embeddings_prefix_irrelevant rt ts (default "passage" p)
                   (default "passage" p') Hoff).
Qed.

Lemma prefix_field_ignored_without_prefix_mode_witness :
  embed Toy.plain_runtime
    {| text := Some "a"; texts := None; prefix := Some "query" |}
  = embed Toy.plain_runtime
      {| text := Some "a"; texts := None; prefix := None |}.
Proof.
  apply (proj1 (prefix_field_ignored_without_prefix_mode Toy.plain_runtime
                  (Some "a") None (Some "query") None) eq_refl).
Defined.

(** X8: [POST /similarity] answers 400 exactly when 'text1' or 'text2' is
    missing, and then calls neither the tokenizer nor the model. *)
Theorem similarity_missing_field (rt : Runtime) (data : similarity_request) :
  (status (similarity rt data) = 400%nat
   <-> text1 data = None \/ text2 data = None)
  /\ (text1 data = None \/ text2 data = None ->
      similarity rt data
      = ([], (ErrorJson "Missing 'text1' or 'text2' in request body", 400%nat))).
Proof.
  destruct data as [[t1|] [t2|]]; cbn [text1 text2].
  - split.
    + split; [|intros [H|H]; discriminate H].
      rewrite similarity_unfold. cbn zeta. unfold status. cbn [snd].
      destruct (rbind _ _); cbn; discriminate.
    + intros [H|H]; discriminate H.
  - split; [split; auto|]. reflexivity.
  - split; [split; auto|]. reflexivity.
  - split; [split; auto|]. reflexivity.
Qed.

Lemma similarity_missing_field_witness :
  similarity Toy.e5_runtime {| text1 := Some "a"; text2 := None |}
  = ([], (ErrorJson "Missing 'text1' or 'text2' in request body", 400%nat)).
Proof.
  apply (similarity_missing_field Toy.e5_runtime
           {| text1 := Some "a"; text2 := None |}).
  right. reflexivity.
Defined.

(** X9: when embedding 'text1' fails, [POST /similarity] answers 500 with that
    error and 'text2' is never tokenized: the trace is the one of the first
    pipeline run alone. *)
Theorem similarity_stops_at_first_failure (rt : Runtime) (t1 t2 : string)
    (e : exn) :
  outcome (get_embeddings rt [t1] "query") = raise e ->
  similarity rt (sim_request t1 t2)
  = (trace (get_embeddings rt [t1] "query"), (ErrorJson (str e), 500%nat))
  /\ length (tokenizer_inputs (fst (similarity rt (sim_request t1 t2)))) = 1%nat.
Proof.
  intros He. unfold sim_request. rewrite similarity_unfold. cbn zeta.
  rewrite He. cbn [raise rbind fst]. rewrite app_nil_r.
  split; [reflexivity|]. now rewrite get_embeddings_tokenizer_inputs.
Qed.

Lemma similarity_stops_at_first_failure_witness :
  similarity broken_runtime (sim_request "a" "b")
  = ([Tokenize ["a"]], (ErrorJson "tokenizer failed", 500%nat)).
Proof.
  apply (similarity_stops_at_first_failure broken_runtime "a" "b"
           (Exception "RuntimeError" "tokenizer failed")).
  reflexivity.
Defined.

(** X10: [POST /similarity] agrees with [POST /embed]: if /embed answers 200
    for 'text1' with prefix "query" and for 'text2' with prefix "passage",
    then /similarity answers 200 exactly when the first vectors of the two
    answers have the same length, and its score is then what [sdot] makes of
    their component-wise products. *)
Theorem similarity_agrees_with_embed (rt : Runtime) (t1 t2 : string)
    (u v : list f32) (r1 r2 : list (list f32)) (d1 d2 c1 c2 : nat) :
  snd (embed rt (text_request t1 "query"))
  = (EmbedJson (u :: r1) d1 c1, 200%nat) ->
  snd (embed rt (text_request t2 "passage"))
  = (EmbedJson (v :: r2) d2 c2, 200%nat) ->
  (status (similarity rt (sim_request t1 t2)) = 200%nat
   <-> length u = length v)
  /\ (length u = length v ->
      score (similarity rt (sim_request t1 t2))
      = Some (blas_sdot rt (zip_with F32.exact_mul u v)))
  /\ (length u <> length v ->
      score (similarity rt (sim_request t1 t2)) = None).
Proof.
  intros H1 H2.
  rewrite (embed_unfold rt (text_request t1 "query") [t1] eq_refl) in H1.
  rewrite (embed_unfold rt (text_request t2 "passage") [t2] eq_refl) in H2.
  cbn zeta in H1, H2. cbn [snd prefix text_request default] in H1, H2.
  unfold id in H1, H2. unfold sim_request. rewrite similarity_unfold. cbn zeta.
  destruct (outcome (get_embeddings rt [t1] "query")) as [e1|E1];
    [discriminate|].
  destruct (outcome (get_embeddings rt [t2] "passage")) as [e2|E2];
    [discriminate|].
  injection H1 as Hu _ _. injection H2 as Hv _ _.
  unfold score, status, body, row0. cbn [rbind fst snd].
  rewrite Hu, Hv. cbn [rbind ok]. unfold dot.
  destruct (Nat.eqb_spec (length u) (length v)) as [Heq|Hne]; cbn.
  - split; [split; auto|]. split; [reflexivity | intros; contradiction].
  - split; [split; [discriminate | intros; contradiction]|].
    split; [intros; contradiction | reflexivity].
Qed.

Lemma similarity_agrees_with_embed_witness :
  exists u v : list f32,
    (status (similarity Toy.e5_runtime (sim_request "a" "b")) = 200%nat
     <-> length u = length v)
    /\ length u = 3%nat /\ length v = 3%nat.
Proof.
  eexists _, _. split.
  - eapply (similarity_agrees_with_embed Toy.e5_runtime "a" "b"); reflexivity.
  - split; reflexivity.
Defined.

(** X11: [GET /health] answers 200 without touching tokenizer or model, names
    the loaded model, and its 'e5_prefix_mode' flag tells truthfully whether
    texts reach the tokenizer with the role prefix prepended. *)
Theorem health_reports_prefix_mode (rt : Runtime) (s p : string) :
  fst (health rt) = []
  /\ snd (snd (health rt)) = 200%nat
  /\ health_model (fst (snd (health rt))) = model_name rt
  /\ tokenizer_inputs (trace (get_embeddings rt [s] p))
     = [[if e5_prefix_mode (fst (snd (health rt))) then p +:+ ": " +:+ s
         else s]].
Proof.
  repeat split. cbn [health fst snd e5_prefix_mode].
  rewrite get_embeddings_tokenizer_inputs. unfold prefixed_sentences.
  destruct (Cache.USE_E5_PREFIX _); reflexivity.
Qed.

(** ** Model names, the prefix flag and the cache path *)

Section Names.

Lemma lower_char_e (c : Ascii.ascii) :
  lower_char c = "e"%char <-> c = "e"%char \/ c = "E"%char.
Proof.
  destruct c as [[] [] [] [] [] [] [] []]; vm_compute;
    (split; [intros H; first [discriminate H | now left | now right]
            | intros [H|H]; first [discriminate H | reflexivity]]).
Qed.

Lemma lower_char_5 (c : Ascii.ascii) : lower_char c = "5"%char <-> c = "5"%char.
Proof.
  destruct c as [[] [] [] [] [] [] [] []]; vm_compute;
    (split; intros H; first [discriminate H | reflexivity]).
Qed.

Lemma prefix_e5_lower (s : string) :
  String.prefix "e5" (lower s) = true
  <-> exists c b, s = String c (String "5" b) /\ (c = "e"%char \/ c = "E"%char).
Proof.
  destruct s as [|x [|y r]]; cbn [lower String.prefix].
  - split; [discriminate | intros (c & b & H & _); discriminate H].
  - split; [|intros (c & b & H & _); discriminate H].
    destruct (ascii_dec "e" (lower_char x)); discriminate.
  - assert (Hp : String.prefix "" (lower r) = true) by now destruct (lower r).
    rewrite Hp. clear Hp.
    destruct (ascii_dec "e" (lower_char x)) as [Hx|Hx];
      [destruct (ascii_dec "5" (lower_char y)) as [Hy|Hy]|].
    + split; [intros _|reflexivity].
      symmetry in Hx. symmetry in Hy.
      apply (proj1 (lower_char_e x)) in Hx.
      apply (proj1 (lower_char_5 y)) in Hy.
      subst y. eauto.
    + split; [discriminate|]. intros (c & b & H & _). injection H as _ Hy' _.
      contradiction Hy. symmetry. now apply (proj2 (lower_char_5 y)).
    + split; [discriminate|]. intros (c & b & H & Hc). injection H as Hx' _ _.
      contradiction Hx. symmetry. apply (proj2 (lower_char_e x)).
      now rewrite Hx'.
Qed.

Lemma append_inj_l (p x y : string) : p +:+ x = p +:+ y -> x = y.
Proof.
  induction p as [|c p IH]; cbn; [auto|]. intros H. injection H as H. auto.
Qed.

Lemma contains_underscore_cons (c : Ascii.ascii) (r : string) :
  contains "_" (String c r) = false -> c <> "_"%char /\ contains "_" r = false.
Proof.
  cbn [contains String.prefix]. intros H. apply orb_false_elim in H as [Hc Hr].
  split; [|exact Hr]. intros ->.
  destruct (ascii_dec "_" "_") as [_|Hne]; [|now contradiction Hne].
  destruct r; discriminate Hc.
Qed.

Lemma replace_injective (a b : string) :
  contains "_" a = false -> contains "_" b = false ->
  replace "/" "_" a = replace "/" "_" b -> a = b.
Proof.
  revert b. induction a as [|c a IH]; intros [|d b] Ha Hb H; cbn in H;
    try discriminate H; [reflexivity|].
  apply contains_underscore_cons in Ha as [Hc Ha].
  apply contains_underscore_cons in Hb as [Hd Hb].
  injection H as Hcd Hab. rewrite (IH b Ha Hb Hab). f_equal.
  destruct (Ascii.eqb_spec c "/") as [->|Hc'];
    destruct (Ascii.eqb_spec d "/") as [->|Hd']; congruence.
Qed.

End Names.

(** X12: prefix mode is on exactly for the model names that contain "e5" or
    "E5": a character 'e' or 'E' immediately followed by '5', anywhere in the
    name. *)
Theorem use_e5_prefix_iff (name : string) :
  Cache.USE_E5_PREFIX name = true
  <-> exists a c b,
        name = a +:+ String c (String "5" b)
        /\ (c = "e"%char \/ c = "E"%char).
Proof.
  unfold Cache.USE_E5_PREFIX.
  induction name as [|x r IH].
  - split; [discriminate|]. intros (a & c & b & H & _).
    destruct a; discriminate H.
  - change (lower (String x r)) with (String (lower_char x) (lower r)).
    cbn [contains].
    change (String (lower_char x) (lower r)) with (lower (String x r)).
    rewrite orb_true_iff, prefix_e5_lower, IH. split.
    + intros [(c & b & H & Hc)|(a & c & b & H & Hc)].
      * exists EmptyString, c, b. split; [exact H | exact Hc].
      * exists (String x a), c, b. split; [now rewrite H | exact Hc].
    + intros (a & c & b & H & Hc). destruct a as [|y a].
      * left. exists c, b. split; [exact H | exact Hc].
      * right. cbn in H. injection H as _ H. eauto.
Qed.

(** X13: two model names without an underscore get different cache paths
    unless they are the same name; with underscores this fails, "a/b" and
    "a_b" are given one and the same path. *)
Theorem onnx_path_injective_without_underscore (a b : string) :
  contains "_" a = false -> contains "_" b = false ->
  (Cache.onnx_path a = Cache.onnx_path b -> a = b)
  /\ Cache.onnx_path "a/b" = Cache.onnx_path "a_b".
Proof.
  intros Ha Hb. split; [|reflexivity].
  unfold Cache.onnx_path. intros H. apply append_inj_l in H.
  now apply replace_injective.
Qed.

Lemma onnx_path_injective_without_underscore_witness :
  Cache.DEFAULT_MODEL = "intfloat/e5-small-v2"
  /\ Cache.onnx_path "a/b" = Cache.onnx_path "a_b".
Proof.
  destruct (onnx_path_injective_without_underscore Cache.DEFAULT_MODEL
              "intfloat/e5-small-v2" eq_refl eq_refl) as [Hinj Hcollide].
  split; [apply Hinj; reflexivity | exact Hcollide].
Defined.

(** ** Start-up and the cache directory *)

(** X14: model names that map to one cache path share the cache entry: after
    a start-up for the first name succeeded, a start-up for the second name
    loads the first name's model from the cache and converts nothing,
    whatever the exporter would have produced. *)
Theorem colliding_names_share_cache {Model : Type}
    (out out' : Cache.outside Model) (n1 n2 : string)
    (fs fs' : gmap string (option Model)) (evs : list Cache.io_event)
    (p : string) (m : Model) :
  Cache.onnx_path n1 = Cache.onnx_path n2 ->
  Cache.ensure_artifact out n1 fs = (evs, ok (p, m, fs')) ->
  Cache.ensure_artifact out' n2 fs' = ([Cache.LoadCached p], ok (p, m, fs')).
Proof.
  intros Hpath Hrun.
  destruct (ensure_artifact_ok_inv _ _ _ _ _ _ _ Hrun) as (-> & Hlk & _).
  rewrite Hpath in *. now apply ensure_artifact_fast.
Qed.

Lemma colliding_names_share_cache_witness :
  exists fs',
    Cache.ensure_artifact (toy_outside 7) "a/b" ∅
    = ([Cache.Convert "a/b"; Cache.MakeDirs (Cache.onnx_path "a/b");
        Cache.SavePretrained (Cache.onnx_path "a/b")],
       ok (Cache.onnx_path "a/b", 7%nat, fs'))
    /\ Cache.ensure_artifact (toy_outside 8) "a_b" fs'
       = ([Cache.LoadCached (Cache.onnx_path "a/b")],
          ok (Cache.onnx_path "a/b", 7%nat, fs')).
Proof.
  assert (Hrun : Cache.ensure_artifact (toy_outside 7) "a/b" ∅
                 = ([Cache.Convert "a/b"; Cache.MakeDirs (Cache.onnx_path "a/b");
                     Cache.SavePretrained (Cache.onnx_path "a/b")],
                    ok (Cache.onnx_path "a/b", 7%nat,
                        Cache.save_pretrained (toy_outside 7) 7%nat
                          (Cache.onnx_path "a/b")
                          (Cache.makedirs (Cache.onnx_path "a/b") ∅)))).
  { unfold Cache.ensure_artifact.
    rewrite decide_False by (rewrite lookup_empty; apply is_Some_None).
    reflexivity. }
  eexists. split; [exact Hrun|].
  apply (colliding_names_share_cache (toy_outside 7) (toy_outside 8)
           "a/b" "a_b" ∅ _ _ _ _ eq_refl Hrun).
Defined.

Section CacheFrame.

Context {Model : Type}.




End CacheFrame.








(** X16: a cache path that exists without a model blocks start-up: nothing is
    converted or written, [from_pretrained] is called on the path and its
    exception aborts start-up, whatever the exporter would have returned. *)
Theorem modelless_directory_blocks_startup {Model : Type}
    (out : Cache.outside Model) (name : string)
    (fs : gmap string (option Model)) :
  fs !! Cache.onnx_path name = Some None ->
  Cache.ensure_artifact out name fs
  = ([Cache.LoadCached (Cache.onnx_path name)],
     raise (Cache.load_error out (Cache.onnx_path name) fs)).
Proof.
  intros Hlk. unfold Cache.ensure_artifact, Cache.from_pretrained_local.
  rewrite Hlk. rewrite decide_True by eauto. reflexivity.
Qed.

Lemma modelless_directory_blocks_startup_witness :
  Cache.ensure_artifact (toy_outside 7) Cache.DEFAULT_MODEL
    (<[Cache.onnx_path Cache.DEFAULT_MODEL := None]> ∅)
  = ([Cache.LoadCached (Cache.onnx_path Cache.DEFAULT_MODEL)],
     raise (Exception "OSError" "no model")).
Proof.
  apply (modelless_directory_blocks_startup (toy_outside 7)).
  apply lookup_insert_eq.
Defined.
